(** * oxmysql: the query logger ([src/logger/index.ts])

    A shallow embedding of the logger module: the in-memory log store fed by
    [logQuery], the correlation of profiler rows with the statements of a
    batch ([profileBatchStatements]), the view handler of the dashboard
    ([sortQueries] and the [oxmysql:fetchResource] handler) and the message
    clean-up of [logError].

    Conventions of the embedding.
    - A JavaScript number that carries a duration is a binary64 float
      ([PrimFloat.float]); lengths, indexes, the page index and the
      configured log size are integers ([Z] or [nat]).
    - A JavaScript string is a [string]; its characters stand for the code
      units 0..255.
    - [logStorage], a plain object used as a map from resource names to
      arrays, is a [gmap string (list QueryData)]; [undefined] is [None].
      At a property name every object inherits ([inherited_name])
      [logStorage[name]] is never [undefined] and [logQuery] throws instead
      of logging; where that matters a statement says that the name is not
      one of them.
    - [console.log]/[console.error] output is not part of the state: it
      never reaches [logStorage].
    - [Date.now()] is an argument of the function that reads it.
    - The runtime's [parseFloat] and [Array.prototype.sort] are parameters
      of the functions that call them; models of both ([js_parseFloat], and
      [v8_sort] for the arrays the engine sorts as one run) and of the text
      the profiling query answers ([profiling_duration]) are given apart. *)

From Stdlib Require Import ZArith Lia Bool Ascii String Floats DecimalString.
From stdpp Require Import base option list gmap strings.

Local Open Scope string_scope.
Local Open Scope list_scope.
Local Open Scope Z_scope.

(** ** Configuration ([../config], read-only, process-wide) *)

Record Config := {
  mysql_log_size : Z;
  mysql_slow_query_warning : float;
  mysql_ui : bool
}.

(** ** The log store *)

Record QueryData := {
  date : Z;
  query : string;
  executionTime : float;
  slow : option bool        (* [slow?: boolean]: [Some true] or [undefined] *)
}.

Abbreviation QueryLog := (gmap string (list QueryData)).

(** [x >= y] on numbers. *)
Definition number_ge (x y : float) : bool := PrimFloat.leb y x.

(** The record pushed by [logQuery]. *)
Definition newRecord (cfg : Config) (now : Z) (q : string) (t : float) : QueryData :=
  {| query := q;
     executionTime := t;
     date := now;
     slow := if number_ge t (mysql_slow_query_warning cfg) then Some true else None |}.

(** ** JavaScript helpers *)

(** [l[i]] for an integer [i]: [undefined] outside [0 .. length-1]. *)
Definition js_index {A} (l : list A) (i : Z) : option A :=
  if i <? 0 then None else l !! Z.to_nat i.

(** The clamping of an index argument of [Array.prototype.slice]. *)
Definition relative_index (len i : Z) : Z :=
  if i <? 0 then Z.max (len + i) 0 else Z.min i len.

(** [l.slice(start, end)] for integer arguments. *)
Definition slice {A} (l : list A) (start stop : Z) : list A :=
  let len := Z.of_nat (length l) in
  let k := relative_index len start in
  let final := relative_index len stop in
  take (Z.to_nat (final - k)) (drop (Z.to_nat k) l).

(** [Math.ceil(n / d)] for an integer [n] and a positive integer [d]. *)
Definition Math_ceil_div (n d : Z) : Z := - ((- n) / d).

(** Truthiness of a string: only the empty string is falsy. *)
Definition truthy (s : string) : bool :=
  match s with EmptyString => false | String _ _ => true end.

Definition in_range (lo hi : N) (c : ascii) : bool :=
  let n := N_of_ascii c in (lo <=? n)%N && (n <=? hi)%N.

(** [toLowerCase] on one code unit below 256: A-Z and the Latin-1 capitals. *)
Definition lower_unit (c : ascii) : ascii :=
  if in_range 65 90 c || (in_range 192 222 c && negb (N_of_ascii c =? 215)%N)
  then ascii_of_N (N_of_ascii c + 32)
  else c.

Fixpoint toLowerCase (s : string) : string :=
  match s with
  | EmptyString => EmptyString
  | String c s' => String (lower_unit c) (toLowerCase s')
  end.

(** [s.includes(sub)]. *)
Fixpoint includes (s sub : string) : bool :=
  if String.prefix sub s then true
  else match s with
       | EmptyString => false
       | String _ s' => includes s' sub
       end.

(** [a > b] on strings: lexicographic on code units. *)
Fixpoint string_gt (a b : string) : bool :=
  match a, b with
  | EmptyString, _ => false
  | String _ _, EmptyString => true
  | String x a', String y b' =>
      match (N_of_ascii x ?= N_of_ascii y)%N with
      | Gt => true
      | Lt => false
      | Eq => string_gt a' b'
      end
  end.

(** ** [logError]: the message clean-up (line 15)

    The pattern is
    [/SCRIPT ERROR: citizen:[\w\/\.]+:\d+[:\s]+/]. Each of its three
    repetitions is followed by something outside its own character class (or
    by nothing), so the greedy match at a position takes the longest run of
    each class and never has to give characters back. *)

Definition is_word (c : ascii) : bool :=
  in_range 65 90 c || in_range 97 122 c || in_range 48 57 c
  || (N_of_ascii c =? 95)%N.

(** [[\w\/\.]] *)
Definition is_path (c : ascii) : bool :=
  is_word c || (N_of_ascii c =? 47)%N || (N_of_ascii c =? 46)%N.

(** [\d] *)
Definition is_digit (c : ascii) : bool := in_range 48 57 c.

(** [[:\s]]: the colon and the white space below 256. *)
Definition is_sep (c : ascii) : bool :=
  (N_of_ascii c =? 58)%N || in_range 9 13 c
  || (N_of_ascii c =? 32)%N || (N_of_ascii c =? 160)%N.

(** Drops the longest prefix whose characters satisfy [p]. *)
Fixpoint skip_while (p : ascii -> bool) (s : string) : string :=
  match s with
  | EmptyString => EmptyString
  | String c s' => if p c then skip_while p s' else s
  end.

(** [c+], greedy: what follows the longest non-empty run. *)
Definition many1 (p : ascii -> bool) (s : string) : option string :=
  match s with
  | EmptyString => None
  | String c s' => if p c then Some (skip_while p s') else None
  end.

(** A literal: what follows [lit] when [s] starts with it. *)
Fixpoint literal (lit s : string) : option string :=
  match lit, s with
  | EmptyString, _ => Some s
  | String _ _, EmptyString => None
  | String a lit', String b s' =>
      if Ascii.eqb a b then literal lit' s' else None
  end.

Definition script_error_literal : string := "SCRIPT ERROR: citizen:".

(** The pattern matched at the start of [s]: what follows the match. *)
Definition match_here (s : string) : option string :=
  s1 ← literal script_error_literal s;
  s2 ← many1 is_path s1;
  s3 ← literal ":" s2;
  s4 ← many1 is_digit s3;
  many1 is_sep s4.

(** [err.replace(/.../, '')]: the leftmost match is removed. *)
Fixpoint replace_script_error (s : string) : string :=
  match match_here s with
  | Some rest => rest
  | None =>
      match s with
      | EmptyString => EmptyString
      | String c s' => String c (replace_script_error s')
      end
  end.

(** [err: Error | string] *)
Inductive ErrorArg :=
| ErrObject (message : string)
| ErrString (text : string).

(** [const message = typeof err === 'object' ? err.message : err.replace(...)] *)
Definition logError_message (err : ErrorArg) : string :=
  match err with
  | ErrObject message => message
  | ErrString text => replace_script_error text
  end.

(** ** Sorting and the view *)

Inductive SortId := SortQuery | SortExecutionTime | SortOther.

Record SortSpec := { sort_id : SortId; sort_desc : bool }.

(** The comparator handed to [sort] (lines 165-174). *)
Definition compareQueries (sid : SortId) (a b : QueryData) : float :=
  match sid with
  | SortQuery => if string_gt (query a) (query b) then 1%float else (-1)%float
  | SortExecutionTime => PrimFloat.sub (executionTime a) (executionTime b)
  | SortOther => 0%float
  end.

Inductive ResourceArg :=
| ResourceName (name : string)
| NotAString.

Record FetchData := {
  resource : ResourceArg;
  pageIndex : Z;
  search : string;
  sortBy : option (list SortSpec)
}.

Record ViewResponse := {
  queries : list QueryData;
  pageCount : Z;
  resourceQueriesCount : Z;
  resourceSlowQueries : Z;
  resourceTime : float
}.

(** What the handler does: returns without an answer, sends
    [oxmysql:loadResource], or dies on a [TypeError]. *)
Inductive Outcome :=
| Dropped
| Emitted (response : ViewResponse)
| TypeError.

(** The aggregation loop (lines 203-212): [(resourceTime, resourceSlowQueries)]. *)
Definition aggregate (resourceLog : list QueryData) : float * Z :=
  fold_left
    (fun acc q =>
       (PrimFloat.add (fst acc) (executionTime q),
        match slow q with Some true => snd acc + 1 | _ => snd acc end))
    resourceLog (0%float, 0).

Section Logger.

(** One set of statement parameters ([CFXParameters] is [any[]]). *)
Context {Param : Type}.

(** [logQuery]. Lines 101-110 print a console line and change nothing;
    the [parameters] only reach that line. Lines 112-122 are the update of
    the store. [now] is the value [Date.now()] returns. *)
Definition logQuery (cfg : Config) (now : Z)
    (invokingResource q : string) (t : float) (parameters : option Param)
    (logStorage : QueryLog) : QueryLog :=
  if negb (mysql_ui cfg) then logStorage
  else
    let log :=
      match logStorage !! invokingResource with
      | None => []
      | Some log =>
          if Z.of_nat (length log) >? mysql_log_size cfg
          then drop 1 log            (* splice(0, 1) *)
          else log
      end in
    <[invokingResource := log ++ [newRecord cfg now q t]]> logStorage.

(** [logQuery] over and over: the [k]-th call reads [Date_now k]. *)
Record LogCall := {
  call_resource : string;
  call_query : string;
  call_executionTime : float;
  call_parameters : option Param
}.

Definition logQuery_call (cfg : Config) (now : Z) (c : LogCall)
    (logStorage : QueryLog) : QueryLog :=
  logQuery cfg now (call_resource c) (call_query c)
    (call_executionTime c) (call_parameters c) logStorage.

Fixpoint logQuery_all (cfg : Config) (Date_now : nat -> Z) (k : nat)
    (calls : list LogCall) (logStorage : QueryLog) : QueryLog :=
  match calls with
  | [] => logStorage
  | c :: calls' =>
      logQuery_all cfg Date_now (S k) calls'
        (logQuery_call cfg (Date_now k) c logStorage)
  end.

(** ** The profiler correlation (lines 54-82) *)

(** A row of the profiling query: the text of its [duration] column,
    [FORMAT(SUM(DURATION) * 1000, 4)]. *)
Record ProfilerRow := { duration : string }.

(** [{ query: string; params?: CFXParameters }] *)
Record Transaction := { t_query : string; t_params : option Param }.

(** [query: string | { query: string; params?: CFXParameters }[]] *)
Inductive BatchQuery :=
| Template (text : string)
| Transactions (batch : list Transaction).

(** The runtime's [parseFloat]. *)
Variable parseFloat : string -> float.

Section Correlation.

(** What a call of [logQuery] in iteration [i] does to the state [St]. *)
Context {St : Type} (call : nat -> LogCall -> St -> St).

(** Lines 72-74: rows [i, i+1, ...] of the profiler, no bounds check. *)
Fixpoint template_loop (invokingResource text : string)
    (parameters : list Param) (offset : Z) (i : nat)
    (profiler : list ProfilerRow) (st : St) : St :=
  match profiler with
  | [] => st
  | row :: profiler' =>
      template_loop invokingResource text parameters offset (S i) profiler'
        (call i
           {| call_resource := invokingResource;
              call_query := text;
              call_executionTime := parseFloat (duration row);
              call_parameters := js_index parameters (offset + Z.of_nat i) |}
           st)
  end.

(** Lines 76-81: stops at the first row without a transaction. *)
Fixpoint transaction_loop (invokingResource : string)
    (batch : list Transaction) (offset : Z) (i : nat)
    (profiler : list ProfilerRow) (st : St) : St :=
  match profiler with
  | [] => st
  | row :: profiler' =>
      match js_index batch (offset + Z.of_nat i) with
      | Some transaction =>
          transaction_loop invokingResource batch offset (S i) profiler'
            (call i
               {| call_resource := invokingResource;
                  call_query := t_query transaction;
                  call_executionTime := parseFloat (duration row);
                  call_parameters := t_params transaction |}
               st)
      | None => st                 (* break *)
      end
  end.

(** [profiler] is the answer of the profiling query. *)
Definition profileBatchStatements_with (invokingResource : string)
    (q : BatchQuery) (parameters : option (list Param)) (offset : Z)
    (profiler : list ProfilerRow) (st : St) : St :=
  match profiler with
  | [] => st                       (* profiler.length === 0 *)
  | _ :: _ =>
      match q, parameters with
      | Template text, Some ps =>
          template_loop invokingResource text ps offset 0 profiler st
      | Template _, None => st
      | Transactions batch, _ =>
          transaction_loop invokingResource batch offset 0 profiler st
      end
  end.

End Correlation.

(** The function on the log store. *)
Definition profileBatchStatements (cfg : Config) (Date_now : nat -> Z)
    (invokingResource : string) (q : BatchQuery)
    (parameters : option (list Param)) (offset : Z)
    (profiler : list ProfilerRow) (logStorage : QueryLog) : QueryLog :=
  profileBatchStatements_with (fun i c => logQuery_call cfg (Date_now i) c)
    invokingResource q parameters offset profiler logStorage.

(** The calls of [logQuery] it makes, in order. *)
Definition profileBatchStatements_calls (invokingResource : string)
    (q : BatchQuery) (parameters : option (list Param)) (offset : Z)
    (profiler : list ProfilerRow) : list LogCall :=
  profileBatchStatements_with (fun _ c calls => calls ++ [c])
    invokingResource q parameters offset profiler [].

(** ** [sortQueries] and the [oxmysql:fetchResource] handler *)

(** The runtime's [Array.prototype.sort], on a copy. *)
Variable array_sort :
  (QueryData -> QueryData -> float) -> list QueryData -> list QueryData.

Definition sortQueries (queries : list QueryData) (sort : SortSpec)
    : list QueryData :=
  let sortedQueries := array_sort (compareQueries (sort_id sort)) queries in
  if sort_desc sort then rev sortedQueries else sortedQueries.

(** [q.query.toLowerCase().includes(data.search)] *)
Definition matches (search : string) (q : QueryData) : bool :=
  includes (toLowerCase (query q)) search.

(** Lines 187-220. [allowed] is the answer of [IsPlayerAceAllowed].
    [logStorage[data.resource]] is [undefined] for a resource without a
    log: calling [filter] or [slice] on it, or spreading it, throws. *)
Definition fetchResource (allowed : bool) (data : FetchData)
    (logStorage : QueryLog) : Outcome :=
  match resource data with
  | NotAString => Dropped
  | ResourceName name =>
      if negb allowed then Dropped
      else
        let search :=
          if truthy (search data) then toLowerCase (search data)
          else search data in
        match logStorage !! name with
        | None => TypeError
        | Some log =>
            let resourceLog :=
              if truthy search then List.filter (matches search) log
              else log in
            let sort :=
              match sortBy data with
              | Some (first :: _) => Some first
              | _ => None
              end in
            let startRow := pageIndex data * 10 in
            let endRow := startRow + 10 in
            let queries :=
              match sort with
              | Some sort => slice (sortQueries resourceLog sort) startRow endRow
              | None => slice resourceLog startRow endRow
              end in
            let pageCount := Math_ceil_div (Z.of_nat (length resourceLog)) 10 in
            (* [if (!queries) return]: an array is never falsy *)
            let resourceQueriesCount := Z.of_nat (length resourceLog) in
            let '(resourceTime, resourceSlowQueries) := aggregate resourceLog in
            Emitted
              {| queries := queries;
                 pageCount := pageCount;
                 resourceQueriesCount := resourceQueriesCount;
                 resourceSlowQueries := resourceSlowQueries;
                 resourceTime := resourceTime |}
        end
  end.

End Logger.

Arguments LogCall : clear implicits.
Arguments Transaction : clear implicits.
Arguments BatchQuery : clear implicits.

(** ** The engine's sort

    The script runs on V8. Its [Array.prototype.sort] ([array-sort.tq]) sorts
    an array of fewer than 64 elements as a single run: [CountAndMakeRun]
    finds the run the array starts with (reversing it when it is strictly
    descending) and [BinaryInsertionSort] inserts the remaining elements one
    by one. Longer arrays are cut into such runs, which are then merged; that
    part is not modelled. The comparator is always called with the later
    element first. *)

Section V8Sort.

Context {A : Type} (comparefn : A -> A -> float).

(** [sortState.Compare]: a [NaN] answer counts as [0]. *)
Definition Compare (x y : A) : float :=
  let v := comparefn x y in
  if PrimFloat.is_nan v then 0%float else v.

Definition negative (order : float) : bool := PrimFloat.ltb order 0%float.

(** How many elements of [l] continue the run that ends in [previous]. *)
Fixpoint run_tail (isDescending : bool) (previous : A) (l : list A) : nat :=
  match l with
  | [] => O
  | current :: l' =>
      let order := Compare current previous in
      if isDescending then
        if negative order then S (run_tail isDescending current l') else O
      else
        if negative order then O else S (run_tail isDescending current l')
  end.

(** [CountAndMakeRun]: the initial run, made ascending, and the rest. *)
Definition CountAndMakeRun (l : list A) : list A * list A :=
  match l with
  | elementHigh :: elementLow :: l' =>
      let isDescending := negative (Compare elementLow elementHigh) in
      let runLength := (2 + run_tail isDescending elementLow l')%nat in
      let run := take runLength l in
      (if isDescending then rev run else run, drop runLength l)
  | _ => (l, [])
  end.

(** The binary search of [BinaryInsertionSort]: where [pivot] goes in the
    sorted prefix. *)
Fixpoint insertion_point (pivot : A) (sorted : list A) (fuel left right : nat)
    : nat :=
  match fuel with
  | O => left
  | S fuel' =>
      if (left <? right)%nat then
        let mid := (left + (right - left) / 2)%nat in
        match sorted !! mid with
        | Some middle =>
            if negative (Compare pivot middle)
            then insertion_point pivot sorted fuel' left mid
            else insertion_point pivot sorted fuel' (S mid) right
        | None => left
        end
      else left
  end.

Fixpoint BinaryInsertionSort (sorted rest : list A) : list A :=
  match rest with
  | [] => sorted
  | pivot :: rest' =>
      let left :=
        insertion_point pivot sorted (S (length sorted)) O (length sorted) in
      BinaryInsertionSort (take left sorted ++ pivot :: drop left sorted) rest'
  end.

(** [ArrayTimSortImpl] on fewer than 64 elements. *)
Definition v8_sort (l : list A) : list A :=
  if (length l <? 2)%nat then l
  else let '(run, rest) := CountAndMakeRun l in BinaryInsertionSort run rest.

End V8Sort.


(** ** Notions used in the statements *)

(** The last [n] elements of [l]. *)
Definition lastn {A} (n : nat) (l : list A) : list A :=
  drop (length l - n) l.

(** The records a sequence of [logQuery] calls pushes: the first call reads
    [Date_now k]. *)
Fixpoint recordsOf {Param} (cfg : Config) (Date_now : nat -> Z) (k : nat)
    (calls : list (LogCall Param)) : list QueryData :=
  match calls with
  | [] => []
  | c :: calls' =>
      newRecord cfg (Date_now k) (call_query c) (call_executionTime c)
      :: recordsOf cfg Date_now (S k) calls'
  end.

(** All the calls of [calls] are for resource [r]. *)
Definition all_for {Param} (r : string) (calls : list (LogCall Param)) : Prop :=
  Forall (fun c => call_resource c = r) calls.

(** Truthiness of the [slow] field. *)
Definition is_slow (q : QueryData) : bool :=
  match slow q with Some true => true | _ => false end.

(** The sum of the execution times, added from the left, starting at [0]. *)
Definition total_time (l : list QueryData) : float :=
  fold_left PrimFloat.add (map executionTime l) 0%float.

(** Every character of [s] satisfies [p]. *)
Fixpoint all_chars (p : ascii -> bool) (s : string) : bool :=
  match s with
  | EmptyString => true
  | String c s' => p c && all_chars p s'
  end.

(** [s] is empty or starts with a character outside [p]. *)
Definition starts_outside (p : ascii -> bool) (s : string) : bool :=
  match s with
  | EmptyString => true
  | String c _ => negb (p c)
  end.

(** The texts the pattern of [logError] matches:
    [SCRIPT ERROR: citizen:<path>:<line><sep>]. *)
Definition matched_text (path line sep : string) : string :=
  script_error_literal +:+ path +:+ ":" +:+ line +:+ sep.

Definition well_formed (path line sep : string) : Prop :=
  path <> "" /\ all_chars is_path path = true
  /\ line <> "" /\ all_chars is_digit line = true
  /\ sep <> "" /\ all_chars is_sep sep = true.

Definition starts_with_match (s : string) : Prop :=
  exists path line sep rest,
    well_formed path line sep /\ s = matched_text path line sep +:+ rest.

(** A script location under any name space:
    [SCRIPT ERROR: <namespace>:<path>:<line>:]. *)
Definition script_location_prefix (namespace path line : string) : string :=
  "SCRIPT ERROR: " +:+ namespace +:+ ":" +:+ path +:+ ":" +:+ line +:+ ":".

(** ** The debug setting: [runProfiler] and the console line of [logQuery] *)

(** [mysql_debug: boolean | string[]] *)
Inductive DebugSetting :=
| DebugFlag (on : bool)
| DebugResources (names : list string).

(** Lines 34-39. *)
Definition profilerStatements : list string :=
  [ "SET profiling_history_size = 0";
    "SET profiling = 0";
    "SET profiling_history_size = 100";
    "SET profiling = 1" ].

(** [runProfiler] (lines 44-52): its result ([undefined] or [true]) and the
    statements the connection has been sent, [sent] being those sent before. *)
Definition runProfiler (mysql_debug : DebugSetting) (invokingResource : string)
    (sent : list string) : option bool * list string :=
  match mysql_debug with
  | DebugFlag false => (None, sent)              (* !mysql_debug *)
  | DebugFlag true => (Some true, sent ++ profilerStatements)
  | DebugResources names =>
      if bool_decide (invokingResource ∈ names)
      then (Some true, sent ++ profilerStatements)
      else (None, sent)
  end.

(** The test of lines 101-104: whether [logQuery] prints its console line. *)
Definition logQuery_prints (cfg : Config) (mysql_debug : DebugSetting)
    (invokingResource : string) (t : float) : bool :=
  number_ge t (mysql_slow_query_warning cfg)
  || match mysql_debug with
     | DebugFlag on => on
     | DebugResources names => bool_decide (invokingResource ∈ names)
     end.

(** ** The [mysql] command (lines 125-162) *)

(** [{ queries: number; time: number }] *)
Record ChartEntry := { chart_queries : Z; chart_time : float }.

(** The payload of [oxmysql:openUi]; [chartData] is its two arrays. *)
Record UiSummary := {
  resources : list string;
  totalQueries : Z;
  slowQueries : Z;
  totalTime : float;
  chartData_labels : list string;
  chartData_data : list ChartEntry
}.

(** [queries.reduce((n, query) => (n += query.slow ? 1 : 0), 0)] *)
Definition slow_count (l : list QueryData) : Z :=
  fold_left (fun n q => n + (if is_slow q then 1 else 0)) l 0.

(** One turn of the loop over the resources (lines 142-150), on the running
    totals and the chart. *)
Definition openUi_step (logStorage : QueryLog) (acc : UiSummary)
    (resource : string) : UiSummary :=
  let queries := default [] (logStorage !! resource) in
  let totalResourceTime := PrimFloat.add 0%float (total_time queries) in
  {| resources := resources acc;
     totalQueries := totalQueries acc + Z.of_nat (length queries);
     totalTime := PrimFloat.add (totalTime acc) (total_time queries);
     slowQueries := slowQueries acc + slow_count queries;
     chartData_labels := chartData_labels acc ++ [resource];
     chartData_data :=
       chartData_data acc
       ++ [ {| chart_queries := Z.of_nat (length queries);
               chart_time := totalResourceTime |} ] |}.

(** The command handler. [keys] is the sequence in which the engine
    enumerates the keys of [logStorage], for the loop and for [Object.keys];
    the result is what is sent, if anything. *)
Definition openUi (cfg : Config) (source : Z) (keys : list string)
    (logStorage : QueryLog) : option UiSummary :=
  if negb (mysql_ui cfg) then None
  else if source <? 1 then None
  else
    Some (fold_left (openUi_step logStorage) keys
            {| resources := keys; totalQueries := 0; slowQueries := 0;
               totalTime := 0%float; chartData_labels := [];
               chartData_data := [] |}).

(** [keys] lists the keys of the store, each once. *)
Definition enumerates (keys : list string) (logStorage : QueryLog) : Prop :=
  NoDup keys /\ forall r, r ∈ keys <-> is_Some (logStorage !! r).

(** ** More notions used in the statements *)

(** The largest length a log settles at. *)
Definition log_bound (cfg : Config) : nat :=
  Z.to_nat (Z.max (mysql_log_size cfg + 1) 1).

(** Every log of the store satisfies [P]. *)
Definition all_logs (P : list QueryData -> Prop) (st : QueryLog) : Prop :=
  forall r log, st !! r = Some log -> P log.

(** The dates of a log never decrease. *)
Definition chronological (log : list QueryData) : Prop :=
  forall i j a b, (i <= j)%nat -> log !! i = Some a -> log !! j = Some b ->
    date a <= date b.

(** The [slow] mark of a record is the one [logQuery] gives under [cfg]. *)
Definition slow_marked (cfg : Config) (q : QueryData) : Prop :=
  slow q = if number_ge (executionTime q) (mysql_slow_query_warning cfg)
           then Some true else None.

(** The request for one page of a resource. *)
Definition page_request (r : string) (page : Z) (text : string)
    (sort : option (list SortSpec)) : FetchData :=
  {| resource := ResourceName r; pageIndex := page; search := text;
     sortBy := sort |}.

(** The filtered log in the order of the requested sort. *)
Definition ordered_view
    (array_sort : (QueryData -> QueryData -> float) ->
                  list QueryData -> list QueryData)
    (data : FetchData) (log : list QueryData) : list QueryData :=
  let filtered := List.filter (matches (toLowerCase (search data))) log in
  match sortBy data with
  | Some (sort :: _) => sortQueries array_sort filtered sort
  | _ => filtered
  end.

(** The page a response carries ([[]] when nothing is sent). *)
Definition page_of (o : Outcome) : list QueryData :=
  match o with Emitted r => queries r | _ => [] end.

(** ** The profiling query and [parseFloat] *)

(** [StrWhiteSpaceChar] below 256. *)
Definition is_space (c : ascii) : bool :=
  in_range 9 13 c || (N_of_ascii c =? 32)%N || (N_of_ascii c =? 160)%N.

(** The longest run of digits [s] starts with, read on from [value]: the
    number read, how many digits it took, and what follows. *)
Fixpoint read_digits (s : string) (value : N) (count : nat)
    : N * nat * string :=
  match s with
  | String c s' =>
      if is_digit c
      then read_digits s' (value * 10 + (N_of_ascii c - 48)) (S count)
      else (value, count, s)
  | EmptyString => (value, count, s)
  end.

Fixpoint pow10 (n : nat) : float :=
  match n with
  | O => 1%float
  | S n' => PrimFloat.mul 10%float (pow10 n')
  end.

(** The number [mantissa * 10 ^ scale], with its sign. *)
Definition scaled (minus : bool) (mantissa : N) (scale : Z) : float :=
  let m := PrimFloat.of_uint63 (Uint63.of_Z (Z.of_N mantissa)) in
  let v := if scale <? 0
           then PrimFloat.div m (pow10 (Z.to_nat (- scale)))
           else PrimFloat.mul m (pow10 (Z.to_nat scale)) in
  if minus then PrimFloat.opp v else v.

(** A sign, if there is one, and what follows it. *)
Definition read_sign (s : string) : bool * string :=
  match s with
  | String c s' =>
      if Ascii.eqb c "-" then (true, s')
      else if Ascii.eqb c "+" then (false, s')
      else (false, s)
  | EmptyString => (false, s)
  end.

(** An exponent part, if [s] starts with a whole one. *)
Definition read_exponent (s : string) : Z :=
  match s with
  | String c s1 =>
      if Ascii.eqb c "e" || Ascii.eqb c "E" then
        let '(minus, s2) := read_sign s1 in
        let '(value, count, _) := read_digits s2 0 O in
        match count with
        | O => 0
        | S _ => if minus then - Z.of_N value else Z.of_N value
        end
      else 0
  | EmptyString => 0
  end.

(** The runtime's [parseFloat]: it skips white space and reads the longest
    decimal literal the text starts with; what follows is ignored, and the
    result is [NaN] when there is no such literal. The value is the
    literal's, rounded once, as long as its digits make a number below
    [2^53] and the power of ten that scales it is at most [10^22]. *)
Definition js_parseFloat (s : string) : float :=
  let '(minus, s1) := read_sign (skip_while is_space s) in
  if String.prefix "Infinity" s1
  then if minus then PrimFloat.neg_infinity else PrimFloat.infinity
  else
    let '(int_value, int_count, s2) := read_digits s1 0 O in
    let '(mantissa, frac_count, s3) :=
      match s2 with
      | String c s' =>
          if Ascii.eqb c "." then read_digits s' int_value O
          else (int_value, O, s2)
      | EmptyString => (int_value, O, s2)
      end in
    match (int_count + frac_count)%nat with
    | O => PrimFloat.nan
    | S _ => scaled minus mantissa (read_exponent s3 - Z.of_nat frac_count)
    end.

Definition decimal_digits (n : N) : string :=
  NilEmpty.string_of_uint (N.to_uint n).

(** A comma before every group of three digits, counted from the right;
    [digits] come last digit first, [k] of them already in the group. *)
Fixpoint group_rev (digits : list ascii) (k : nat) : list ascii :=
  match digits with
  | [] => []
  | d :: rest =>
      if (k =? 3)%nat then ","%char :: d :: group_rev rest 1
      else d :: group_rev rest (S k)
  end.

Definition group_thousands (s : string) : string :=
  string_of_list_ascii (rev (group_rev (rev (list_ascii_of_string s)) O)).

Definition pad3 (n : N) : string :=
  (if (n <? 10)%N then "00" else if (n <? 100)%N then "0" else "")
  +:+ decimal_digits n.

(** The [duration] column of the profiling query of line 63,
    [FORMAT(SUM(DURATION) * 1000, 4)], for a query whose statements took
    [microseconds] in all: the engine's [FORMAT] writes the milliseconds
    with four decimals and groups the integer part in thousands with
    commas. ([DURATION] has six decimals, so no digit is rounded away.) *)
Definition profiling_duration (microseconds : N) : string :=
  group_thousands (decimal_digits (microseconds / 1000))
  +:+ "." +:+ pad3 (microseconds mod 1000) +:+ "0".

(** ** What a client sends *)

(** The names every object inherits from [Object.prototype]. *)
Definition inherited_names : list string :=
  [ "constructor"; "__proto__"; "__defineGetter__"; "__defineSetter__";
    "__lookupGetter__"; "__lookupSetter__"; "hasOwnProperty";
    "isPrototypeOf"; "propertyIsEnumerable"; "toLocaleString"; "toString";
    "valueOf" ].

Definition inherited_name (r : string) : bool :=
  bool_decide (r ∈ inherited_names).

(** [data.search] as it arrives: a string, or something else (without a
    [toLowerCase] of its own), of which only the truthiness matters. *)
Inductive SearchArg :=
| SearchText (text : string)
| SearchOther (is_truthy : bool).

Record ClientData := {
  client_resource : ResourceArg;
  client_pageIndex : Z;
  client_search : SearchArg;
  client_sortBy : option (list SortSpec)
}.

(** The handler on what a client sends. The handler only tests the type of
    [data.resource] (line 187): a truthy [data.search] that is no string
    makes [data.search.toLowerCase()] throw (line 189), a falsy one is no
    search at all, like the empty text. *)
Definition fetchResource_client
    (array_sort : (QueryData -> QueryData -> float) ->
                  list QueryData -> list QueryData)
    (allowed : bool) (data : ClientData) (logStorage : QueryLog) : Outcome :=
  match client_resource data with
  | NotAString => Dropped
  | ResourceName name =>
      if negb allowed then Dropped
      else
        match client_search data with
        | SearchOther true => TypeError
        | SearchOther false =>
            fetchResource array_sort allowed
              {| resource := ResourceName name;
                 pageIndex := client_pageIndex data;
                 search := "";
                 sortBy := client_sortBy data |} logStorage
        | SearchText text =>
            fetchResource array_sort allowed
              {| resource := ResourceName name;
                 pageIndex := client_pageIndex data;
                 search := text;
                 sortBy := client_sortBy data |} logStorage
        end
  end.

(** ** Sample data for the instances *)

Definition sample_cfg : Config :=
  {| mysql_log_size := 2; mysql_slow_query_warning := 200%float;
     mysql_ui := true |}.

Definition sample_call (r q : string) (t : float) : LogCall nat :=
  {| call_resource := r; call_query := q; call_executionTime := t;
     call_parameters := None |}.

Definition sample_calls : list (LogCall nat) :=
  [ sample_call "res" "SELECT * FROM Users" 250%float;
    sample_call "res" "UPDATE accounts SET x = 1" 1%float;
    sample_call "res" "select 1" 2%float;
    sample_call "res" "DELETE FROM users" 300%float ].

Definition sample_log : list QueryData :=
  [ newRecord sample_cfg 1 "SELECT * FROM Users" 250%float;
    newRecord sample_cfg 2 "UPDATE accounts SET x = 1" 1%float ].

Definition sample_parseFloat (s : string) : float :=
  if String.eqb s "2.0000" then 2%float else 0%float.

(** * Properties *)

(** ** Comparisons of binary64 numbers *)

Lemma SFcompare_swap (x y : SpecFloat.spec_float) (c : comparison) :
  SpecFloat.SFcompare x y = Some c ->
  SpecFloat.SFcompare y x = Some (CompOpp c).
Proof.
  destruct x as [sx | sx | | sx mx ex], y as [sy | sy | | sy my ey];
    simpl; try discriminate;
    try (destruct sx; intros [= <-]; reflexivity);
    try (destruct sy; intros [= <-]; reflexivity);
    try (intros [= <-]; reflexivity).
  - destruct sx, sy; intros [= <-]; reflexivity.
  - destruct sx, sy; intros [= <-]; try reflexivity;
      rewrite (Z.compare_antisym ex ey);
      destruct (ex ?= ey); simpl; try reflexivity;
      repeat f_equal; symmetry; exact (Pos.compare_cont_antisym mx my Eq).
Qed.

(** [t == threshold] gives [t >= threshold]. *)
Lemma number_ge_of_eqb (t threshold : float) :
  PrimFloat.eqb t threshold = true -> number_ge t threshold = true.
Proof.
  unfold number_ge. rewrite FloatAxioms.eqb_spec, FloatAxioms.leb_spec.
  unfold SpecFloat.SFeqb, SpecFloat.SFleb.
  destruct (SpecFloat.SFcompare (Prim2SF t) (Prim2SF threshold)) as [c|] eqn:E;
    [|discriminate].
  rewrite (SFcompare_swap _ _ _ E). destruct c; simpl; congruence.
Qed.

(** [t < threshold] excludes [t >= threshold]. *)
Lemma number_ge_of_ltb (t threshold : float) :
  PrimFloat.ltb t threshold = true -> number_ge t threshold = false.
Proof.
  unfold number_ge. rewrite FloatAxioms.ltb_spec, FloatAxioms.leb_spec.
  unfold SpecFloat.SFltb, SpecFloat.SFleb.
  destruct (SpecFloat.SFcompare (Prim2SF t) (Prim2SF threshold)) as [c|] eqn:E;
    [|discriminate].
  rewrite (SFcompare_swap _ _ _ E). destruct c; simpl; congruence.
Qed.

(** ** The log store: [logQuery] *)

Section LogStore.

Context {Param : Type}.
Implicit Types (cfg : Config) (st : QueryLog) (calls : list (LogCall Param)).

Lemma logQuery_disabled cfg now r q t (p : option Param) st :
  mysql_ui cfg = false -> logQuery cfg now r q t p st = st.
Proof. intros H. unfold logQuery. now rewrite H. Qed.

(** The log of the resource after a call: at most one record goes, from
    the front, and the new one is added at the end. *)
Lemma logQuery_lookup cfg now r q t (p : option Param) st :
  mysql_ui cfg = true ->
  logQuery cfg now r q t p st !! r =
    Some ((let log := default [] (st !! r) in
           if Z.of_nat (length log) >? mysql_log_size cfg
           then drop 1 log else log)
          ++ [newRecord cfg now q t]).
Proof.
  intros H. unfold logQuery. rewrite H. simpl. rewrite lookup_insert_eq.
  destruct (st !! r) as [log|]; simpl; [reflexivity|].
  destruct (_ >? _); reflexivity.
Qed.

Lemma logQuery_lookup_ne cfg now r r' q t (p : option Param) st :
  r <> r' -> logQuery cfg now r q t p st !! r' = st !! r'.
Proof.
  intros H. unfold logQuery. destruct (negb (mysql_ui cfg)); [reflexivity|].
  now rewrite lookup_insert_ne.
Qed.

Lemma lastn_all {A} (n : nat) (l : list A) :
  (length l <= n)%nat -> lastn n l = l.
Proof. intros H. unfold lastn. now replace (length l - n)%nat with O by lia. Qed.

Lemma length_lastn {A} (n : nat) (l : list A) :
  length (lastn n l) = Nat.min n (length l).
Proof. unfold lastn. rewrite length_drop. lia. Qed.

(** One more record: the window of the [C + 1] latest moves on. *)
Lemma evict_push {A} (C : Z) (done : list A) (x : A) :
  0 <= C ->
  (let log := lastn (Z.to_nat C + 1) done in
   if Z.of_nat (length log) >? C then drop 1 log else log) ++ [x]
  = lastn (Z.to_nat C + 1) (done ++ [x]).
Proof.
  intros HC. cbv zeta. rewrite length_lastn.
  destruct (Z.gtb_spec (Z.of_nat (Nat.min (Z.to_nat C + 1) (length done))) C)
    as [Hgt | Hle].
  - unfold lastn. rewrite drop_drop, length_app. simpl.
    rewrite drop_app_le by lia. f_equal. f_equal. lia.
  - rewrite !lastn_all; [reflexivity | rewrite length_app; simpl; lia | lia].
Qed.

Lemma logQuery_all_window cfg Date_now r calls : forall k st done,
  mysql_ui cfg = true -> 0 <= mysql_log_size cfg ->
  all_for r calls ->
  default [] (st !! r) = lastn (Z.to_nat (mysql_log_size cfg) + 1) done ->
  default [] (logQuery_all cfg Date_now k calls st !! r) =
    lastn (Z.to_nat (mysql_log_size cfg) + 1)
      (done ++ recordsOf cfg Date_now k calls).
Proof.
  induction calls as [|c calls IH]; intros k st done Hui HC Hall Hst; simpl.
  - now rewrite app_nil_r.
  - inversion Hall as [|? ? Hc Hall']; subst.
    rewrite (IH (S k) _ (done ++ [newRecord cfg (Date_now k) (call_query c)
                                    (call_executionTime c)])); try assumption.
    + now rewrite <- app_assoc.
    + unfold logQuery_call. rewrite logQuery_lookup by assumption.
      simpl. rewrite Hst. now apply evict_push.
Qed.

(** After [N] calls for one resource, starting without a log for it, the
    log holds the [min N (C + 1)] latest records in the order of the
    calls: one more than the configured size [C]. *)
Lemma logQuery_all_latest cfg Date_now r calls st :
  mysql_ui cfg = true -> 0 <= mysql_log_size cfg ->
  all_for r calls -> st !! r = None ->
  let log := default [] (logQuery_all cfg Date_now O calls st !! r) in
  log = lastn (Z.to_nat (mysql_log_size cfg) + 1) (recordsOf cfg Date_now O calls)
  /\ length log = Nat.min (length calls) (Z.to_nat (mysql_log_size cfg) + 1).
Proof.
  intros Hui HC Hall Hst. cbv zeta.
  rewrite (logQuery_all_window cfg Date_now r calls O st []); try assumption.
  - split; [reflexivity|]. rewrite length_lastn. simpl.
    assert (Hlen : forall k, length (recordsOf cfg Date_now k calls) = length calls).
    { clear. induction calls; intros k; simpl; [reflexivity | now rewrite IHcalls]. }
    rewrite Hlen. lia.
  - now rewrite Hst.
Qed.

End LogStore.

(** C1. With [mysql_log_size = 2], three calls of [logQuery] for one resource
    leave three records in its log, and a fourth call still leaves three:
    the log settles at one record more than the configured size, because the
    oldest record is removed only when the length already exceeds the size
    before the push. *)
Theorem logQuery_keeps_one_past_log_size :
  let cfg := {| mysql_log_size := 2;
                mysql_slow_query_warning := 200%float;
                mysql_ui := true |} in
  let call q := {| call_resource := "res"; call_query := q;
                   call_executionTime := 1%float;
                   call_parameters := @None unit |} in
  (map query <$>
     logQuery_all cfg Z.of_nat O [call "q1"; call "q2"; call "q3"] ∅ !! "res")
  = Some ["q1"; "q2"; "q3"]
  /\ (map query <$>
        logQuery_all cfg Z.of_nat O
          [call "q1"; call "q2"; call "q3"; call "q4"] ∅ !! "res")
     = Some ["q2"; "q3"; "q4"].
Proof. split; vm_compute; reflexivity. Qed.

(** C8. With the dashboard enabled, the record [logQuery] adds at the end of
    the resource's log is marked slow exactly when
    [executionTime >= mysql_slow_query_warning]: an execution time equal to
    the threshold is slow, one below the threshold is not. *)
Theorem logQuery_slow_iff {Param} cfg now r q t (p : option Param) st :
  mysql_ui cfg = true ->
  exists log rec,
    logQuery cfg now r q t p st !! r = Some (log ++ [rec])
    /\ query rec = q /\ executionTime rec = t
    /\ (slow rec = Some true <->
        PrimFloat.leb (mysql_slow_query_warning cfg) t = true)
    /\ (PrimFloat.eqb t (mysql_slow_query_warning cfg) = true ->
        slow rec = Some true)
    /\ (PrimFloat.ltb t (mysql_slow_query_warning cfg) = true ->
        slow rec = None).
Proof.
  intros Hui. eexists _, (newRecord cfg now q t).
  split; [apply logQuery_lookup; assumption|].
  unfold newRecord; simpl. repeat split.
  - unfold number_ge. destruct (PrimFloat.leb _ t); [reflexivity | discriminate].
  - unfold number_ge. now intros ->.
  - intros H. now rewrite (number_ge_of_eqb _ _ H).
  - intros H. now rewrite (number_ge_of_ltb _ _ H).
Qed.

Lemma logQuery_slow_iff_witness :
  exists log rec,
    logQuery {| mysql_log_size := 100; mysql_slow_query_warning := 200%float;
                mysql_ui := true |} 7 "res" "SELECT 1" 200%float
      (@None unit) ∅ !! "res" = Some (log ++ [rec])
    /\ slow rec = Some true.
Proof.
  destruct (logQuery_slow_iff
              {| mysql_log_size := 100; mysql_slow_query_warning := 200%float;
                 mysql_ui := true |} 7 "res" "SELECT 1" 200%float
              (@None unit) ∅ eq_refl)
    as (log & rec & Hlog & _ & _ & _ & Heq & _).
  exists log, rec. split; [exact Hlog | apply Heq; reflexivity].
Defined.

(** C10. With the dashboard disabled ([mysql_ui] false), no sequence of
    [logQuery] calls changes the log store: no log is created, no record is
    added, and a store that starts empty stays empty. *)
Theorem logQuery_ui_disabled {Param} cfg :
  mysql_ui cfg = false ->
  forall Date_now k (calls : list (LogCall Param)) st,
    logQuery_all cfg Date_now k calls st = st.
Proof.
  intros Hui Date_now k calls. revert k.
  induction calls as [|c calls IH]; intros k st; simpl; [reflexivity|].
  unfold logQuery_call. rewrite logQuery_disabled by assumption. apply IH.
Qed.

Lemma logQuery_ui_disabled_witness :
  let cfg := {| mysql_log_size := 100; mysql_slow_query_warning := 200%float;
                mysql_ui := false |} in
  mysql_ui cfg = false
  /\ logQuery_all cfg Z.of_nat O
       [ {| call_resource := "a"; call_query := "SELECT 1";
            call_executionTime := 250%float; call_parameters := Some 1%nat |};
         {| call_resource := "b"; call_query := "SELECT 2";
            call_executionTime := 1%float; call_parameters := None |} ] ∅
     = ∅.
Proof.
  split; [reflexivity|].
  apply (logQuery_ui_disabled
           {| mysql_log_size := 100; mysql_slow_query_warning := 200%float;
              mysql_ui := false |}).
  reflexivity.
Defined.

(** ** The profiler correlation *)

Section CorrelationFacts.

Context {Param : Type} (parseFloat : string -> float).
Implicit Types (ps : list Param) (batch : list (Transaction Param))
  (profiler : list ProfilerRow) (calls : list (LogCall Param)).

(** The handler that writes the calls down. *)
Abbreviation record := (fun (_ : nat) (c : LogCall Param) calls => calls ++ [c]).

(** The call of row [i] in the single-template form. *)
Abbreviation template_call r text ps offset :=
  (fun (i : nat) (row : ProfilerRow) =>
     {| call_resource := r; call_query := text;
        call_executionTime := parseFloat (duration row);
        call_parameters := js_index ps (offset + Z.of_nat i) |}).

Lemma template_loop_calls r text ps offset profiler : forall i calls,
  template_loop parseFloat record r text ps offset i profiler calls =
  calls ++ imap (fun j => template_call r text ps offset (i + j)%nat) profiler.
Proof.
  induction profiler as [|row profiler IH]; intros i calls; simpl.
  - now rewrite app_nil_r.
  - rewrite IH, <- app_assoc. simpl. rewrite Nat.add_0_r.
    do 2 f_equal. apply imap_ext. intros j x _. simpl.
    do 3 f_equal. lia.
Qed.

Lemma template_loop_run cfg Date_now r text ps offset profiler : forall i st,
  template_loop parseFloat (fun i c => logQuery_call cfg (Date_now i) c)
    r text ps offset i profiler st =
  logQuery_all cfg Date_now i
    (imap (fun j => template_call r text ps offset (i + j)%nat) profiler) st.
Proof.
  induction profiler as [|row profiler IH]; intros i st; simpl; [reflexivity|].
  rewrite IH, Nat.add_0_r. f_equal. apply imap_ext. intros j x _. simpl.
  do 3 f_equal. lia.
Qed.

Lemma transaction_loop_acc r batch offset profiler : forall i calls,
  transaction_loop parseFloat record r batch offset i profiler calls =
  calls ++ transaction_loop parseFloat record r batch offset i profiler [].
Proof.
  induction profiler as [|row profiler IH]; intros i calls; simpl.
  - now rewrite app_nil_r.
  - destruct (js_index batch (offset + Z.of_nat i)) as [t|].
    + rewrite IH. rewrite (IH (S i) [_]). now rewrite <- app_assoc.
    + now rewrite app_nil_r.
Qed.

Lemma transaction_loop_run cfg Date_now r batch offset profiler : forall i st,
  transaction_loop parseFloat (fun i c => logQuery_call cfg (Date_now i) c)
    r batch offset i profiler st =
  logQuery_all cfg Date_now i
    (transaction_loop parseFloat record r batch offset i profiler []) st.
Proof.
  induction profiler as [|row profiler IH]; intros i st; simpl; [reflexivity|].
  destruct (js_index batch (offset + Z.of_nat i)) as [t|]; [|reflexivity].
  rewrite transaction_loop_acc. simpl. apply IH.
Qed.

(** What the function does to the store is [logQuery] on each of its calls,
    in order. *)
Lemma profileBatchStatements_run cfg Date_now r (q : BatchQuery Param)
    (parameters : option (list Param)) offset profiler st :
  profileBatchStatements parseFloat cfg Date_now r q parameters offset profiler st
  = logQuery_all cfg Date_now O
      (profileBatchStatements_calls parseFloat r q parameters offset profiler) st.
Proof.
  unfold profileBatchStatements, profileBatchStatements_calls,
    profileBatchStatements_with.
  destruct profiler as [|row profiler]; [reflexivity|].
  destruct q as [text | batch]; [destruct parameters as [ps|]|].
  - rewrite template_loop_run, template_loop_calls. reflexivity.
  - reflexivity.
  - apply transaction_loop_run.
Qed.

(** Rows [0 .. n-1] from position [i] on have a transaction, row [n] has
    none: [n] calls, one per earlier row. *)
Lemma transaction_loop_stops r batch offset : forall n profiler i,
  (n < length profiler)%nat ->
  (forall j, (j < n)%nat ->
     is_Some (js_index batch (offset + Z.of_nat (i + j)))) ->
  js_index batch (offset + Z.of_nat (i + n)) = None ->
  let calls := transaction_loop parseFloat record r batch offset i profiler [] in
  length calls = n
  /\ forall j, (j < n)%nat ->
       exists row t,
         profiler !! j = Some row
         /\ js_index batch (offset + Z.of_nat (i + j)) = Some t
         /\ calls !! j =
              Some {| call_resource := r; call_query := t_query t;
                      call_executionTime := parseFloat (duration row);
                      call_parameters := t_params t |}.
Proof.
  induction n as [|n IH]; intros profiler i Hlen Hsome Hnone; cbv zeta.
  - destruct profiler as [|row profiler]; [simpl in Hlen; lia|]. simpl.
    rewrite Nat.add_0_r in Hnone. rewrite Hnone. split; [reflexivity|].
    intros j Hj. lia.
  - destruct profiler as [|row profiler]; [simpl in Hlen; lia|]. simpl.
    destruct (Hsome O ltac:(lia)) as [t Ht].
    rewrite Nat.add_0_r in Ht. rewrite Ht.
    rewrite transaction_loop_acc.
    destruct (IH profiler (S i)) as [IHlen IHcalls].
    + simpl in Hlen. lia.
    + intros j Hj. replace (S i + j)%nat with (i + S j)%nat by lia.
      apply Hsome. lia.
    + now replace (S i + n)%nat with (i + S n)%nat by lia.
    + split; [simpl; now rewrite IHlen|].
      intros [|j] Hj.
      * exists row, t. rewrite Nat.add_0_r. repeat split; assumption.
      * destruct (IHcalls j ltac:(lia)) as (row' & t' & Hrow & Hidx & Hcall).
        exists row', t'. repeat split; try assumption.
        now replace (i + S j)%nat with (S i + j)%nat by lia.
Qed.

Lemma transaction_loop_break r batch offset profiler i calls :
  js_index batch (offset + Z.of_nat i) = None ->
  transaction_loop parseFloat record r batch offset i profiler calls = calls.
Proof. intros H. destruct profiler; simpl; [|rewrite H]; reflexivity. Qed.

(** C5. In the heterogeneous form, when row [n] is the first row without a
    batch entry at [offset + n], exactly [n] calls of [logQuery] are made:
    one for each earlier row [j], with the text and the parameters of the
    entry at [offset + j] and the duration of row [j]; nothing is logged for
    row [n] or a later row, and the function still returns a store. *)
Theorem profileBatchStatements_transactions_truncate cfg Date_now r batch
    (parameters : option (list Param)) offset profiler (n : nat) st :
  (n < length profiler)%nat ->
  (forall j, (j < n)%nat -> is_Some (js_index batch (offset + Z.of_nat j))) ->
  js_index batch (offset + Z.of_nat n) = None ->
  let calls :=
    profileBatchStatements_calls parseFloat r (Transactions batch)
      parameters offset profiler in
  length calls = n
  /\ (forall j, (j < n)%nat ->
        exists row t,
          profiler !! j = Some row
          /\ js_index batch (offset + Z.of_nat j) = Some t
          /\ calls !! j =
               Some {| call_resource := r; call_query := t_query t;
                       call_executionTime := parseFloat (duration row);
                       call_parameters := t_params t |})
  /\ profileBatchStatements parseFloat cfg Date_now r (Transactions batch)
       parameters offset profiler st
     = logQuery_all cfg Date_now O calls st.
Proof.
  intros Hlen Hsome Hnone calls.
  destruct (transaction_loop_stops r batch offset n profiler O Hlen Hsome Hnone)
    as [Hn Hcalls].
  assert (Heq : calls =
                transaction_loop parseFloat record r batch offset O profiler []).
  { unfold calls, profileBatchStatements_calls, profileBatchStatements_with.
    destruct profiler; [simpl in Hlen; lia | reflexivity]. }
  rewrite Heq. repeat split; try assumption.
  rewrite <- Heq. apply profileBatchStatements_run.
Qed.

(** The pairing of the single-template form, for any [parseFloat]: the
    calls of [logQuery] are one per profiler row, in the order of the rows;
    row [i] is logged with the template text, the parameter set at index
    [offset + i] and what [parseFloat] makes of the row's duration text. The
    store is updated by these calls, in order. Without profiler rows nothing
    is called and the store is unchanged. *)
Theorem profileBatchStatements_template cfg Date_now r text ps offset profiler st :
  let calls :=
    profileBatchStatements_calls parseFloat r (Template text) (Some ps)
      offset profiler in
  calls = imap (template_call r text ps offset) profiler
  /\ length calls = length profiler
  /\ profileBatchStatements parseFloat cfg Date_now r (Template text) (Some ps)
       offset profiler st
     = logQuery_all cfg Date_now O calls st
  /\ forall (q : BatchQuery Param) parameters,
       profileBatchStatements_calls parseFloat r q parameters offset [] = []
       /\ profileBatchStatements parseFloat cfg Date_now r q parameters
            offset [] st = st.
Proof.
  intros calls.
  assert (Heq : calls = imap (template_call r text ps offset) profiler).
  { unfold calls, profileBatchStatements_calls, profileBatchStatements_with.
    destruct profiler as [|row profiler]; [reflexivity|].
    now rewrite template_loop_calls. }
  split; [exact Heq|]. split; [now rewrite Heq, length_imap|].
  split; [apply profileBatchStatements_run|].
  intros q parameters. split; reflexivity.
Qed.

(** C9. The single-template form does not check [offset + i] against the
    list of parameter sets: there is one call of [logQuery] per profiler
    row, and a row whose index [offset + i] lies outside the list is logged
    with the template text, its duration and no parameters. The
    heterogeneous form makes no call at all when its first index is
    outside the batch. *)
Theorem profileBatchStatements_template_unchecked r text ps offset profiler :
  let calls :=
    profileBatchStatements_calls parseFloat r (Template text) (Some ps)
      offset profiler in
  length calls = length profiler
  /\ (forall (i : nat) row,
        profiler !! i = Some row ->
        offset + Z.of_nat i < 0 \/ Z.of_nat (length ps) <= offset + Z.of_nat i ->
        calls !! i =
          Some {| call_resource := r; call_query := text;
                  call_executionTime := parseFloat (duration row);
                  call_parameters := None |})
  /\ (forall batch parameters,
        js_index batch offset = None ->
        profileBatchStatements_calls parseFloat r (Transactions batch)
          parameters offset profiler = []).
Proof.
  intros calls.
  assert (Heq : calls = imap (template_call r text ps offset) profiler).
  { unfold calls, profileBatchStatements_calls, profileBatchStatements_with.
    destruct profiler as [|row profiler]; [reflexivity|].
    now rewrite template_loop_calls. }
  split; [now rewrite Heq, length_imap|]. split.
  - intros i row Hrow Hout. rewrite Heq, list_lookup_imap, Hrow. simpl.
    do 2 f_equal. unfold js_index.
    destruct (Z.ltb_spec (offset + Z.of_nat i) 0) as [|Hge]; [reflexivity|].
    apply lookup_ge_None. lia.
  - intros batch parameters Hnone.
    unfold profileBatchStatements_calls, profileBatchStatements_with.
    destruct profiler as [|row profiler]; [reflexivity|].
    apply transaction_loop_break. now rewrite Z.add_0_r.
Qed.

End CorrelationFacts.

Lemma profileBatchStatements_transactions_truncate_witness :
  let parseFloat := fun s => if String.eqb s "2.0000" then 2%float else 0%float in
  let cfg := {| mysql_log_size := 100; mysql_slow_query_warning := 200%float;
                mysql_ui := true |} in
  let batch := [ {| t_query := "INSERT 1"; t_params := Some 1%nat |};
                 {| t_query := "INSERT 2"; t_params := None |} ] in
  let profiler := [ {| duration := "2.0000" |}; {| duration := "0.5000" |};
                    {| duration := "0.1000" |} ] in
  length (profileBatchStatements_calls parseFloat "res" (Transactions batch)
            None 0 profiler) = 2%nat.
Proof.
  intros parseFloat cfg batch profiler.
  apply (profileBatchStatements_transactions_truncate parseFloat cfg Z.of_nat
           "res" batch None 0 profiler 2 ∅).
  - simpl. lia.
  - intros [|[|j]] Hj; [eexists; reflexivity | eexists; reflexivity | lia].
  - reflexivity.
Defined.

Lemma profileBatchStatements_template_unchecked_witness :
  let parseFloat := fun s => if String.eqb s "2.0000" then 2%float else 0%float in
  let profiler := [ {| duration := "2.0000" |}; {| duration := "0.5000" |} ] in
  profileBatchStatements_calls parseFloat "res" (Template "INSERT ?")
    (Some [7%nat]) 1 profiler !! O
  = Some {| call_resource := "res"; call_query := "INSERT ?";
            call_executionTime := 2%float; call_parameters := None |}.
Proof.
  intros parseFloat profiler.
  apply (proj1 (proj2 (profileBatchStatements_template_unchecked parseFloat
                         "res" "INSERT ?" [7%nat] 1 profiler))
           O {| duration := "2.0000" |}).
  - reflexivity.
  - right. simpl. lia.
Defined.

(** ** The view: [sortQueries] and the [oxmysql:fetchResource] handler *)

Lemma includes_empty (s : string) : includes s "" = true.
Proof. destruct s; reflexivity. Qed.

Lemma search_lowered (s : string) :
  (if truthy s then toLowerCase s else s) = toLowerCase s.
Proof. destruct s; reflexivity. Qed.

Lemma truthy_toLowerCase (s : string) : truthy (toLowerCase s) = truthy s.
Proof. destruct s; reflexivity. Qed.

(** Without a search text nothing is filtered out. *)
Lemma filter_matches_falsy (s : string) (log : list QueryData) :
  truthy s = false -> List.filter (matches s) log = log.
Proof.
  destruct s; [intros _ | discriminate].
  induction log as [|q log IH]; simpl; [reflexivity|].
  unfold matches at 1. rewrite includes_empty. now rewrite IH.
Qed.

Lemma aggregate_from (l : list QueryData) : forall (time : float) (n : Z),
  fold_left
    (fun acc q =>
       (PrimFloat.add (fst acc) (executionTime q),
        match slow q with Some true => snd acc + 1 | _ => snd acc end))
    l (time, n)
  = (fold_left PrimFloat.add (map executionTime l) time,
     n + Z.of_nat (length (List.filter is_slow l))).
Proof.
  induction l as [|q l IH]; intros time n; simpl.
  - now rewrite Z.add_0_r.
  - rewrite IH. f_equal. unfold is_slow.
    destruct (slow q) as [[|]|]; simpl; lia.
Qed.

Lemma aggregate_spec (l : list QueryData) :
  aggregate l = (total_time l, Z.of_nat (length (List.filter is_slow l))).
Proof. unfold aggregate. now rewrite aggregate_from. Qed.

(** [Math.ceil(n / 10)] is the least number of pages of ten that hold [n]. *)
Lemma Math_ceil_div_10 (n : Z) :
  10 * (Math_ceil_div n 10 - 1) < n <= 10 * Math_ceil_div n 10.
Proof.
  unfold Math_ceil_div.
  pose proof (Z.div_mod (- n) 10 ltac:(lia)).
  pose proof (Z.mod_pos_bound (- n) 10 ltac:(lia)). lia.
Qed.

Section ViewFacts.

Variable array_sort :
  (QueryData -> QueryData -> float) -> list QueryData -> list QueryData.

(** Descending order is the ascending result reversed, whatever the
    engine's [sort] does. *)
Lemma sortQueries_desc (l : list QueryData) (sid : SortId) :
  sortQueries array_sort l {| sort_id := sid; sort_desc := true |}
  = rev (sortQueries array_sort l {| sort_id := sid; sort_desc := false |}).
Proof. reflexivity. Qed.

(** C2. A page request that names a resource without a log, sent by an
    allowed player, ends in a [TypeError]: [logStorage[data.resource]] is
    [undefined], and the handler calls [filter] or [slice] on it (or
    spreads it) before it gets to build a response. *)
Theorem fetchResource_unknown_resource data name st :
  resource data = ResourceName name -> st !! name = None ->
  fetchResource array_sort true data st = TypeError.
Proof. intros Hres Hst. unfold fetchResource. now rewrite Hres, Hst. Qed.

(** C7. For a page request of an allowed player that names a resource with
    a log, the response carries the aggregates of the whole filtered log -
    the records whose lower-cased text includes the lower-cased search
    text: [resourceQueriesCount] is its length, [resourceSlowQueries] the
    number of its slow records, [resourceTime] the sum of its execution
    times, and [pageCount] is that length divided by ten, rounded up.
    Neither the sort specification nor the page index enters them. *)
Theorem fetchResource_aggregates data name log st :
  resource data = ResourceName name -> st !! name = Some log ->
  let filtered := List.filter (matches (toLowerCase (search data))) log in
  let ordered :=
    match sortBy data with
    | Some (sort :: _) => sortQueries array_sort filtered sort
    | _ => filtered
    end in
  exists pages,
    fetchResource array_sort true data st =
      Emitted {| queries :=
                   slice ordered (pageIndex data * 10) (pageIndex data * 10 + 10);
                 pageCount := pages;
                 resourceQueriesCount := Z.of_nat (length filtered);
                 resourceSlowQueries :=
                   Z.of_nat (length (List.filter is_slow filtered));
                 resourceTime := total_time filtered |}
    /\ pages = Math_ceil_div (Z.of_nat (length filtered)) 10
    /\ 10 * (pages - 1) < Z.of_nat (length filtered) <= 10 * pages.
Proof.
  intros Hres Hst filtered ordered. unfold fetchResource.
  rewrite Hres, Hst. simpl. rewrite search_lowered, truthy_toLowerCase.
  assert (Hlog : (if truthy (search data)
                  then List.filter (matches (toLowerCase (search data))) log
                  else log) = filtered).
  { destruct (truthy (search data)) eqn:E; [reflexivity|].
    unfold filtered. symmetry. apply filter_matches_falsy.
    now rewrite truthy_toLowerCase. }
  rewrite Hlog, aggregate_spec.
  eexists. split; [|split; [reflexivity | apply Math_ceil_div_10]].
  unfold ordered. destruct (sortBy data) as [[|sort sorts]|]; reflexivity.
Qed.

End ViewFacts.

(** ** [logError]: the message *)

Lemma append_cons (c : ascii) (s t : string) :
  String c s +:+ t = String c (s +:+ t).
Proof. reflexivity. Qed.

Lemma append_assoc (s t u : string) : (s +:+ t) +:+ u = s +:+ (t +:+ u).
Proof.
  induction s as [|c s IH]; [reflexivity|].
  now rewrite !append_cons, IH.
Qed.

Lemma literal_append (lit r : string) : literal lit (lit +:+ r) = Some r.
Proof.
  induction lit as [|c lit IH]; [now destruct r|].
  rewrite append_cons. simpl. now rewrite Ascii.eqb_refl.
Qed.

Lemma literal_inv (lit : string) : forall s r,
  literal lit s = Some r -> s = lit +:+ r.
Proof.
  induction lit as [|c lit IH]; intros s r; simpl.
  - now intros [= ->].
  - destruct s as [|d s]; [discriminate|].
    destruct (Ascii.eqb_spec c d) as [->|]; [|discriminate].
    intros H. rewrite append_cons. f_equal. now apply IH.
Qed.

Lemma skip_while_append (p : ascii -> bool) (run r : string) :
  all_chars p run = true -> starts_outside p r = true ->
  skip_while p (run +:+ r) = r.
Proof.
  intros Hrun Hr. induction run as [|c run IH].
  - destruct r as [|d r]; [reflexivity|]. simpl in *.
    now destruct (p d).
  - simpl in Hrun. apply andb_true_iff in Hrun as [Hc Hrun].
    rewrite append_cons. simpl. rewrite Hc. now apply IH.
Qed.

Lemma skip_while_inv (p : ascii -> bool) (s : string) :
  exists run,
    all_chars p run = true /\ s = run +:+ skip_while p s
    /\ starts_outside p (skip_while p s) = true.
Proof.
  induction s as [|c s (run & Hrun & Hs & Hout)].
  - now exists "".
  - simpl. destruct (p c) eqn:Hc.
    + exists (String c run). simpl. rewrite Hc, Hrun, append_cons, <- Hs. auto.
    + exists "". simpl. now rewrite Hc.
Qed.

Lemma many1_append (p : ascii -> bool) (run r : string) :
  run <> "" -> all_chars p run = true -> starts_outside p r = true ->
  many1 p (run +:+ r) = Some r.
Proof.
  intros Hne Hrun Hr. destruct run as [|c run]; [contradiction|].
  simpl in Hrun. apply andb_true_iff in Hrun as [Hc Hrun].
  rewrite append_cons. simpl. rewrite Hc. f_equal. now apply skip_while_append.
Qed.

Lemma many1_inv (p : ascii -> bool) (s r : string) :
  many1 p s = Some r ->
  exists run,
    run <> "" /\ all_chars p run = true /\ s = run +:+ r
    /\ starts_outside p r = true.
Proof.
  destruct s as [|c s]; simpl; [discriminate|].
  destruct (p c) eqn:Hc; [|discriminate]. intros [= <-].
  destruct (skip_while_inv p s) as (run & Hrun & Hs & Hout).
  exists (String c run). simpl. rewrite Hc, Hrun, append_cons, <- Hs.
  repeat split; [discriminate | assumption].
Qed.

(** A separator is not a digit. *)
Lemma is_sep_not_digit (c : ascii) : is_sep c = true -> is_digit c = false.
Proof.
  destruct c as [[] [] [] [] [] [] [] []]; vm_compute; intros H;
    first [reflexivity | discriminate H].
Qed.

(** The matcher finds every text of the pattern, ... *)
Lemma match_here_complete (path line sep rest : string) :
  well_formed path line sep -> starts_outside is_sep rest = true ->
  match_here (matched_text path line sep +:+ rest) = Some rest.
Proof.
  intros (Hp & Hpath & Hl & Hline & Hs & Hsep) Hrest.
  unfold match_here, matched_text. rewrite !append_assoc, literal_append. simpl.
  rewrite many1_append by (assumption || reflexivity). simpl.
  change ("" +:+ line +:+ sep +:+ rest) with (line +:+ sep +:+ rest).
  rewrite many1_append; try assumption.
  - simpl. apply many1_append; assumption.
  - destruct sep as [|c sep]; [contradiction|]. rewrite append_cons. simpl.
    simpl in Hsep. apply andb_true_iff in Hsep as [Hc _].
    now rewrite (is_sep_not_digit c Hc).
Qed.

(** ... and nothing else. *)
Lemma match_here_sound (s rest : string) :
  match_here s = Some rest ->
  exists path line sep,
    well_formed path line sep /\ s = matched_text path line sep +:+ rest
    /\ starts_outside is_sep rest = true.
Proof.
  unfold match_here. intros H.
  apply bind_Some in H as (s1 & E1 & H). apply bind_Some in H as (s2 & E2 & H).
  apply bind_Some in H as (s3 & E3 & H). apply bind_Some in H as (s4 & E4 & H).
  apply literal_inv in E1, E3.
  apply many1_inv in E2 as (path & Hp & Hpath & -> & _).
  apply many1_inv in E4 as (line & Hl & Hline & -> & _).
  apply many1_inv in H as (sep & Hs & Hsep & -> & Hout).
  exists path, line, sep. split; [repeat split; assumption|]. split; [|assumption].
  unfold matched_text. rewrite !append_assoc. now subst.
Qed.

Lemma match_here_starts (s rest : string) :
  match_here s = Some rest -> starts_with_match s.
Proof.
  intros (path & line & sep & Hwf & Hs & _)%match_here_sound.
  now exists path, line, sep, rest.
Qed.

Lemma replace_script_error_eq (s : string) :
  replace_script_error s =
  match match_here s with
  | Some rest => rest
  | None =>
      match s with
      | EmptyString => EmptyString
      | String c s' => String c (replace_script_error s')
      end
  end.
Proof. destruct s; reflexivity. Qed.

(** The leftmost match is the one that goes. *)
Lemma replace_script_error_at (tail rest : string) : forall pre,
  (forall pre1 pre2, pre = pre1 +:+ pre2 -> pre2 <> "" ->
     ~ starts_with_match (pre2 +:+ tail)) ->
  match_here tail = Some rest ->
  replace_script_error (pre +:+ tail) = pre +:+ rest.
Proof.
  induction pre as [|c pre IH]; intros Hfirst Htail.
  - change ("" +:+ tail) with tail.
    now rewrite replace_script_error_eq, Htail.
  - rewrite !append_cons, replace_script_error_eq.
    destruct (match_here (String c (pre +:+ tail))) as [r|] eqn:E.
    + exfalso. apply (Hfirst "" (String c pre)); [reflexivity | discriminate |].
      rewrite append_cons. eapply match_here_starts, E.
    + f_equal. apply IH; [|assumption].
      intros pre1 pre2 -> Hne. apply (Hfirst (String c pre1) pre2);
        [now rewrite append_cons | assumption].
Qed.

Lemma replace_script_error_none (text : string) :
  (forall pre suffix, text = pre +:+ suffix -> ~ starts_with_match suffix) ->
  replace_script_error text = text.
Proof.
  induction text as [|c text IH]; intros Hnone.
  - reflexivity.
  - rewrite replace_script_error_eq.
    destruct (match_here (String c text)) as [r|] eqn:E.
    + exfalso. apply (Hnone "" (String c text)); [reflexivity|].
      eapply match_here_starts, E.
    + f_equal. apply IH. intros pre suffix ->.
      apply (Hnone (String c pre) suffix). now rewrite append_cons.
Qed.

(** C4 (as the code has it). For an error given as a string, the message is
    the text without its first script location of the name space [citizen] -
    [SCRIPT ERROR: citizen:<path>:<line>] followed by at least one colon or
    white-space character, all of which go too; a text that holds no such
    location is reported as it is. *)
Theorem logError_message_citizen_location (text : string) :
  (forall pre path line sep rest,
     text = pre +:+ matched_text path line sep +:+ rest ->
     well_formed path line sep ->
     starts_outside is_sep rest = true ->
     (forall pre1 pre2, pre = pre1 +:+ pre2 -> pre2 <> "" ->
        ~ starts_with_match (pre2 +:+ matched_text path line sep +:+ rest)) ->
     logError_message (ErrString text) = pre +:+ rest)
  /\ ((forall pre suffix, text = pre +:+ suffix -> ~ starts_with_match suffix) ->
      logError_message (ErrString text) = text).
Proof.
  split.
  - intros pre path line sep rest -> Hwf Hrest Hfirst. simpl.
    apply replace_script_error_at; [assumption|].
    now apply match_here_complete.
  - intros Hnone. simpl. now apply replace_script_error_none.
Qed.

Lemma logError_message_citizen_location_witness :
  logError_message
    (ErrString "SCRIPT ERROR: citizen:/scripting/lua/scheduler.lua:123: boom")
  = "boom".
Proof.
  apply (proj1 (logError_message_citizen_location
                  "SCRIPT ERROR: citizen:/scripting/lua/scheduler.lua:123: boom")
           "" "/scripting/lua/scheduler.lua" "123" ": " "boom").
  - reflexivity.
  - repeat split; (discriminate || reflexivity).
  - reflexivity.
  - intros [|c pre1] [|d pre2] H Hne;
      [contradiction | discriminate H | discriminate H | discriminate H].
Defined.

(** C4, the claim as it stands, fails for another name space: the location
    [SCRIPT ERROR: monitor:/scripts/main.lua:10:] stays in the message. *)
Lemma logError_message_other_namespace :
  logError_message
    (ErrString (script_location_prefix "monitor" "/scripts/main.lua" "10" +:+ "boom"))
  = "SCRIPT ERROR: monitor:/scripts/main.lua:10:boom"
  /\ logError_message
       (ErrString (script_location_prefix "monitor" "/scripts/main.lua" "10" +:+ "boom"))
     <> "boom".
Proof. split; [reflexivity | vm_compute; discriminate]. Qed.

(** The same location under [citizen] does go. *)
Example logError_message_citizen_namespace :
  logError_message
    (ErrString (script_location_prefix "citizen" "/scripts/main.lua" "10" +:+ "boom"))
  = "boom".
Proof. reflexivity. Qed.

(** ** Sorting by query text *)

Lemma string_gt_irrefl (s : string) : string_gt s s = false.
Proof. induction s as [|c s IH]; simpl; [|rewrite N.compare_refl]; auto. Qed.

(** The comparator of the [query] column never answers [0]: for two records
    with the same text it answers [-1] in either order. *)
Lemma compareQueries_query_tie (a b : QueryData) :
  query a = query b ->
  compareQueries SortQuery a b = (-1)%float
  /\ compareQueries SortQuery b a = (-1)%float.
Proof.
  intros H. unfold compareQueries. rewrite H, string_gt_irrefl. auto.
Qed.

(** C3. On the engine's sort, two records with the same query text come out
    of the ascending sort in reversed insertion order, and of the descending
    sort in insertion order: the comparator answers [-1] for the pair, so the
    later record is taken to be the smaller one. *)
Theorem sortQueries_query_ties (a b : QueryData) :
  query a = query b ->
  sortQueries v8_sort [a; b] {| sort_id := SortQuery; sort_desc := false |}
    = [b; a]
  /\ sortQueries v8_sort [a; b] {| sort_id := SortQuery; sort_desc := true |}
     = [a; b].
Proof.
  intros H. destruct (compareQueries_query_tie a b H) as [_ Hba].
  unfold sortQueries, v8_sort, CountAndMakeRun, Compare.
  cbn [sort_id sort_desc]. rewrite Hba. split; reflexivity.
Qed.

Lemma sortQueries_query_ties_witness :
  let first := {| date := 1; query := "SELECT 1"; executionTime := 3%float;
                  slow := None |} in
  let second := {| date := 2; query := "SELECT 1"; executionTime := 5%float;
                   slow := None |} in
  sortQueries v8_sort [first; second]
    {| sort_id := SortQuery; sort_desc := false |} = [second; first].
Proof.
  intros first second.
  apply (proj1 (sortQueries_query_ties first second eq_refl)).
Defined.

(** The comparator of the [executionTime] column answers [0] on a tie, and
    the records keep their order. *)
Example sortQueries_executionTime_ties :
  let first := {| date := 1; query := "SELECT 1"; executionTime := 3%float;
                  slow := None |} in
  let second := {| date := 2; query := "SELECT 2"; executionTime := 3%float;
                   slow := None |} in
  compareQueries SortExecutionTime second first = 0%float
  /\ sortQueries v8_sort [first; second]
       {| sort_id := SortExecutionTime; sort_desc := false |} = [first; second].
Proof. split; reflexivity. Qed.

(** ** The view handler on the engine's sort *)

Lemma fetchResource_unknown_resource_witness :
  fetchResource v8_sort true
    {| resource := ResourceName "none-such"; pageIndex := 0; search := "";
       sortBy := None |} ∅
  = TypeError.
Proof.
  apply (fetchResource_unknown_resource v8_sort _ "none-such" ∅);
    reflexivity.
Defined.

Lemma fetchResource_aggregates_witness :
  let rec t q s := {| date := 0; query := q; executionTime := t; slow := s |} in
  let log := [ rec 250%float "SELECT * FROM users" (Some true);
               rec 1%float "UPDATE users SET x = 1" None;
               rec 2%float "select 1" None ] in
  let data := {| resource := ResourceName "res"; pageIndex := 1;
                 search := "SELECT";
                 sortBy := Some [ {| sort_id := SortExecutionTime;
                                     sort_desc := true |} ] |} in
  exists pages,
    fetchResource v8_sort true data {[ "res" := log ]} =
      Emitted {| queries := []; pageCount := pages;
                 resourceQueriesCount := 2; resourceSlowQueries := 1;
                 resourceTime := 252%float |}
    /\ pages = 1.
Proof.
  intros rec log data.
  destruct (fetchResource_aggregates v8_sort data "res" log {[ "res" := log ]}
              eq_refl (lookup_singleton_eq _ _)) as (pages & Heq & Hpages & _).
  exists pages. split; [exact Heq | exact Hpages].
Defined.

(** Any number of records with one and the same query text: a single
    descending run for the engine, which reverses it. *)
Lemma Compare_query_tie (a b : QueryData) :
  query a = query b -> Compare (compareQueries SortQuery) a b = (-1)%float.
Proof.
  intros H. unfold Compare.
  now rewrite (proj1 (compareQueries_query_tie a b H)).
Qed.

Lemma run_tail_same_text (q : string) (l : list QueryData) : forall previous,
  query previous = q -> Forall (fun r => query r = q) l ->
  run_tail (compareQueries SortQuery) true previous l = length l.
Proof.
  induction l as [|current l IH]; intros previous Hp Hl; [reflexivity|].
  inversion Hl as [|? ? Hc Hl']; subst. simpl.
  rewrite (Compare_query_tie current previous) by congruence.
  simpl. f_equal. now apply IH.
Qed.

Lemma sortQueries_same_text (q : string) (l : list QueryData) :
  Forall (fun r => query r = q) l ->
  sortQueries v8_sort l {| sort_id := SortQuery; sort_desc := false |} = rev l
  /\ sortQueries v8_sort l {| sort_id := SortQuery; sort_desc := true |} = l.
Proof.
  intros Hl.
  assert (Hasc : v8_sort (compareQueries SortQuery) l = rev l).
  { destruct l as [|a [|b l]]; try reflexivity.
    inversion Hl as [|? ? Ha Hl']; subst.
    inversion Hl' as [|? ? Hb Hl'']; subst.
    unfold v8_sort, CountAndMakeRun.
    rewrite (Compare_query_tie b a) by congruence.
    rewrite (run_tail_same_text (query a)) by (congruence || assumption).
    change (length (a :: b :: l) <? 2)%nat with false. cbv iota.
    change (2 + length l)%nat with (length (a :: b :: l)).
    rewrite firstn_all, drop_all. reflexivity. }
  unfold sortQueries. cbn [sort_id sort_desc]. rewrite Hasc.
  split; [reflexivity | apply rev_involutive].
Qed.

(** The example of a view of the specification: 25 records, 12 of them
    match the search text, sorted by descending execution time, second page. *)
Example fetchResource_second_page :
  let rec (i : nat) :=
    {| date := Z.of_nat i;
       query := if (Nat.even i && (i <? 24)%nat)%bool
                then "SELECT * FROM Users" else "UPDATE accounts";
       executionTime := PrimFloat.of_uint63 (Uint63.of_Z (Z.of_nat i));
       slow := if (20 <=? i)%nat then Some true else None |} in
  let log := map rec (seq 0 25) in
  let data := {| resource := ResourceName "res"; pageIndex := 1;
                 search := "users";
                 sortBy := Some [ {| sort_id := SortExecutionTime;
                                     sort_desc := true |} ] |} in
  match fetchResource v8_sort true data {[ "res" := log ]} with
  | Emitted r =>
      map date (queries r) = [2; 0] /\ pageCount r = 2
      /\ resourceQueriesCount r = 12 /\ resourceSlowQueries r = 2
      /\ resourceTime r = 132%float
  | _ => False
  end.
Proof. vm_compute. repeat split; reflexivity. Qed.

(** * Further properties *)

(** ** What the handler answers for a resource with a log *)

Lemma fetchResource_emits array_sort (data : FetchData) (r : string)
    (log : list QueryData) (st : QueryLog) :
  resource data = ResourceName r -> st !! r = Some log ->
  let filtered := List.filter (matches (toLowerCase (search data))) log in
  fetchResource array_sort true data st =
    Emitted {| queries :=
                 slice (ordered_view array_sort data log)
                   (pageIndex data * 10) (pageIndex data * 10 + 10);
               pageCount := Math_ceil_div (Z.of_nat (length filtered)) 10;
               resourceQueriesCount := Z.of_nat (length filtered);
               resourceSlowQueries :=
                 Z.of_nat (length (List.filter is_slow filtered));
               resourceTime := total_time filtered |}.
Proof.
  intros Hres Hst filtered. unfold fetchResource, ordered_view.
  rewrite Hres, Hst. simpl. rewrite search_lowered, truthy_toLowerCase.
  assert (Hlog : (if truthy (search data)
                  then List.filter (matches (toLowerCase (search data))) log
                  else log) = filtered).
  { destruct (truthy (search data)) eqn:E; [reflexivity|].
    unfold filtered. symmetry. apply filter_matches_falsy.
    now rewrite truthy_toLowerCase. }
  rewrite Hlog, aggregate_spec. fold filtered.
  destruct (sortBy data) as [[|sort sorts]|]; reflexivity.
Qed.

(** ** Invariants of the log store *)

Section StoreInvariants.

Context {Param : Type}.
Implicit Types (cfg : Config) (st : QueryLog) (calls : list (LogCall Param)).

(** The log a call works on: the old one, less its first record when it is
    over the size. *)
Lemma logQuery_cases cfg now r q t (p : option Param) st r' log' :
  logQuery cfg now r q t p st !! r' = Some log' ->
  st !! r' = Some log'
  \/ (r' = r /\ mysql_ui cfg = true
      /\ exists old,
           default [] (st !! r) = old
           /\ log' = (if Z.of_nat (length old) >? mysql_log_size cfg
                      then drop 1 old else old)
                     ++ [newRecord cfg now q t]).
Proof.
  destruct (mysql_ui cfg) eqn:Hui.
  - destruct (decide (r = r')) as [<-|Hne].
    + rewrite logQuery_lookup by assumption. intros [= <-].
      right. repeat split. now exists (default [] (st !! r)).
    + rewrite logQuery_lookup_ne by assumption. now left.
  - rewrite logQuery_disabled by assumption. now left.
Qed.

(** A property of the time a call reads and of the store, kept by every
    call, holds after all of them. *)
Lemma logQuery_all_invariant cfg Date_now (I : nat -> QueryLog -> Prop) :
  (forall k (c : LogCall Param) st,
     I k st -> I (S k) (logQuery_call cfg (Date_now k) c st)) ->
  forall calls k st, I k st -> I (k + length calls)%nat
                                 (logQuery_all cfg Date_now k calls st).
Proof.
  intros Hstep calls. induction calls as [|c calls IH]; intros k st HI; simpl.
  - now rewrite Nat.add_0_r.
  - replace (k + S (length calls))%nat with (S k + length calls)%nat by lia.
    apply IH, Hstep, HI.
Qed.

(** X1. A store whose logs hold at most [max (mysql_log_size + 1) 1] records
    keeps that bound under any sequence of [logQuery] calls, for any
    resources. *)
Theorem logQuery_all_bounded cfg Date_now k calls st :
  all_logs (fun log => (length log <= log_bound cfg)%nat) st ->
  all_logs (fun log => (length log <= log_bound cfg)%nat)
    (logQuery_all cfg Date_now k calls st).
Proof.
  intros Hst.
  apply (logQuery_all_invariant cfg Date_now
           (fun _ st => all_logs (fun log => (length log <= log_bound cfg)%nat) st));
    [|exact Hst].
  clear. intros k c st Hst r' log' Hlog'. unfold logQuery_call in Hlog'.
  apply logQuery_cases in Hlog' as [Hold | (Hr & _ & old & Hdef & Hl)];
    [|subst r' log'].
  - eapply Hst, Hold.
  - assert (Hlen : (length old <= log_bound cfg)%nat).
    { destruct (st !! call_resource c) as [log|] eqn:E; simpl in Hdef; subst old.
      - eapply Hst, E.
      - simpl. lia. }
    unfold log_bound in *. rewrite length_app. simpl.
    destruct (Z.gtb_spec (Z.of_nat (length old)) (mysql_log_size cfg)).
    + rewrite length_drop. lia.
    + lia.
Qed.

Lemma chronological_drop (n : nat) (log : list QueryData) :
  chronological log -> chronological (drop n log).
Proof.
  intros H i j a b Hij Ha Hb. rewrite lookup_drop in Ha, Hb.
  apply (H (n + i)%nat (n + j)%nat); [lia | assumption | assumption].
Qed.

Lemma chronological_push (log : list QueryData) (x : QueryData) :
  chronological log -> (forall q, q ∈ log -> date q <= date x) ->
  chronological (log ++ [x]).
Proof.
  intros H Hx i j a b Hij Ha Hb.
  destruct (decide (j < length log)%nat) as [Hj|Hj].
  - rewrite lookup_app_l in Ha, Hb by lia. now apply (H i j).
  - rewrite lookup_app_r in Hb by lia.
    destruct (j - length log)%nat as [|n] eqn:E; [|now destruct n].
    injection Hb as <-.
    destruct (decide (i < length log)%nat) as [Hi|Hi].
    + rewrite lookup_app_l in Ha by lia. apply Hx.
      eapply list_elem_of_lookup_2, Ha.
    + rewrite lookup_app_r in Ha by lia.
      destruct (i - length log)%nat as [|m]; [|now destruct m].
      injection Ha as <-. lia.
Qed.

(** X2. When the clock never goes back, every log stays in the order of its
    dates: a store whose logs are in that order, with no date after the time
    the next call reads, is still so after any sequence of calls. *)
Theorem logQuery_all_chronological cfg Date_now k calls st :
  (forall i j, (i <= j)%nat -> Date_now i <= Date_now j) ->
  all_logs (fun log => chronological log
                       /\ forall q, q ∈ log -> date q <= Date_now k) st ->
  all_logs chronological (logQuery_all cfg Date_now k calls st).
Proof.
  intros Hmono Hst.
  assert (H : all_logs
                (fun log => chronological log
                            /\ forall q, q ∈ log ->
                                 date q <= Date_now (k + length calls)%nat)
                (logQuery_all cfg Date_now k calls st)).
  { apply (logQuery_all_invariant cfg Date_now
             (fun k st =>
                all_logs (fun log => chronological log
                                     /\ forall q, q ∈ log -> date q <= Date_now k)
                  st)); [|exact Hst].
    clear k calls st Hst. intros k c st Hst r' log' Hlog'.
    unfold logQuery_call in Hlog'.
    apply logQuery_cases in Hlog' as [Hold | (Hr & _ & old & Hdef & Hl)];
    [|subst r' log'].
    - destruct (Hst _ _ Hold) as [Hc Hd]. split; [exact Hc|].
      intros q Hq. etransitivity; [apply Hd, Hq | apply Hmono; lia].
    - assert (Hold : chronological old
                     /\ forall q, q ∈ old -> date q <= Date_now k).
      { destruct (st !! call_resource c) as [log|] eqn:E; simpl in Hdef; subst old.
        - eapply Hst, E.
        - split; [intros i j a b _ Ha; discriminate Ha | intros q Hq; inversion Hq]. }
      destruct Hold as [Hc Hd].
      set (kept := if Z.of_nat (length old) >? mysql_log_size cfg
                   then drop 1 old else old).
      assert (Hkept : chronological kept /\ forall q, q ∈ kept -> q ∈ old).
      { unfold kept. destruct (_ >? _).
        - split; [now apply chronological_drop|].
          intros q Hq. eapply subseteq_drop, Hq.
        - auto. }
      destruct Hkept as [Hkc Hkin]. split.
      + apply chronological_push; [exact Hkc|]. intros q Hq. simpl. auto.
      + intros q [Hq | ->%list_elem_of_singleton]%elem_of_app.
        * etransitivity; [apply Hd, Hkin, Hq | apply Hmono; lia].
        * simpl. apply Hmono. lia. }
  intros r log Hlog. apply (H r log Hlog).
Qed.

(** X3. Under one configuration the [slow] mark of a stored record always
    agrees with its execution time: a store in which every record is marked
    as [logQuery] marks it stays so under any sequence of calls. *)
Theorem logQuery_all_slow_marked cfg Date_now k calls st :
  all_logs (Forall (slow_marked cfg)) st ->
  all_logs (Forall (slow_marked cfg)) (logQuery_all cfg Date_now k calls st).
Proof.
  intros Hst.
  apply (logQuery_all_invariant cfg Date_now
           (fun _ st => all_logs (Forall (slow_marked cfg)) st)); [|exact Hst].
  clear. intros k c st Hst r' log' Hlog'. unfold logQuery_call in Hlog'.
  apply logQuery_cases in Hlog' as [Hold | (Hr & _ & old & Hdef & Hl)];
    [|subst r' log'].
  - eapply Hst, Hold.
  - assert (Hold : Forall (slow_marked cfg) old).
    { destruct (st !! call_resource c) as [log|] eqn:E; simpl in Hdef; subst old.
      - eapply Hst, E.
      - constructor. }
    apply Forall_app. split.
    + destruct (_ >? _); [now apply Forall_drop | assumption].
    + repeat constructor.
Qed.

End StoreInvariants.

(** ** The store and the view together *)

Section StoreAndView.

Context {Param : Type}.
Variable array_sort :
  (QueryData -> QueryData -> float) -> list QueryData -> list QueryData.
Implicit Types (cfg : Config) (st : QueryLog) (calls : list (LogCall Param)).

Lemma logQuery_keeps_keys cfg now r q t (p : option Param) st r' :
  is_Some (st !! r') -> is_Some (logQuery cfg now r q t p st !! r').
Proof.
  intros H. unfold logQuery. destruct (negb (mysql_ui cfg)); [assumption|].
  destruct (decide (r = r')) as [<-|Hne].
  - rewrite lookup_insert_eq. eauto.
  - now rewrite lookup_insert_ne.
Qed.

Lemma logQuery_all_keeps_keys cfg Date_now calls r' : forall k st,
  is_Some (st !! r') -> is_Some (logQuery_all cfg Date_now k calls st !! r').
Proof.
  induction calls as [|c calls IH]; intros k st H; simpl; [assumption|].
  apply IH. unfold logQuery_call. now apply logQuery_keeps_keys.
Qed.

Lemma logQuery_all_creates_key cfg Date_now calls r : forall k st,
  mysql_ui cfg = true ->
  (exists c, c ∈ calls /\ call_resource c = r) ->
  is_Some (logQuery_all cfg Date_now k calls st !! r).
Proof.
  induction calls as [|c calls IH]; intros k st Hui (c' & Hin & Hr).
  - inversion Hin.
  - simpl. apply elem_of_cons in Hin as [-> | Hin].
    + apply logQuery_all_keeps_keys. unfold logQuery_call.
      rewrite Hr, logQuery_lookup by assumption. eauto.
    + apply IH; eauto.
Qed.

(** X4. Once a query of a resource has been logged with the dashboard
    enabled, every page request of an allowed player for that resource is
    answered, whatever is logged afterwards: no call removes a log. This is
    for a resource whose name no object inherits (for the others [logQuery]
    throws and logs nothing) and for a request whose search is a string or
    falsy. *)
Theorem fetchResource_after_logQuery cfg Date_now k calls st
    (data : ClientData) r :
  inherited_name r = false ->
  mysql_ui cfg = true ->
  (exists c, c ∈ calls /\ call_resource c = r) ->
  client_resource data = ResourceName r ->
  client_search data <> SearchOther true ->
  exists response,
    fetchResource_client array_sort true data
      (logQuery_all cfg Date_now k calls st)
    = Emitted response.
Proof.
  intros _ Hui Hcall Hres Hsearch.
  destruct (logQuery_all_creates_key cfg Date_now calls r k st Hui Hcall)
    as [log Hlog].
  unfold fetchResource_client. rewrite Hres. simpl.
  destruct (client_search data) as [text | [|]]; [|contradiction|];
    eexists; apply (fetchResource_emits array_sort _ r log);
    (reflexivity || assumption).
Qed.

(** X5. After [N >= 1] calls for a resource that had no log and whose name
    no object inherits, with the dashboard enabled and a size [C >= 0], a
    page request with the empty search text reports [min N (C + 1)] queries
    for it, on the pages that number needs. *)
Theorem fetchResource_counts_logged cfg Date_now calls st r page sort :
  inherited_name r = false ->
  mysql_ui cfg = true -> 0 <= mysql_log_size cfg ->
  all_for r calls -> calls <> [] -> st !! r = None ->
  let kept := Nat.min (length calls) (Z.to_nat (mysql_log_size cfg) + 1) in
  exists response,
    fetchResource array_sort true (page_request r page "" sort)
      (logQuery_all cfg Date_now O calls st) = Emitted response
    /\ resourceQueriesCount response = Z.of_nat kept
    /\ pageCount response = Math_ceil_div (Z.of_nat kept) 10.
Proof.
  intros _ Hui HC Hall Hne Hst kept.
  destruct (logQuery_all_latest cfg Date_now r calls st Hui HC Hall Hst)
    as [_ Hlen].
  assert (Hkey : is_Some (logQuery_all cfg Date_now O calls st !! r)).
  { apply logQuery_all_creates_key; [assumption|].
    destruct calls as [|c calls]; [contradiction|].
    inversion Hall; subst. exists c. split; [left | reflexivity]. }
  destruct Hkey as [log Hlog]. rewrite Hlog in Hlen. simpl in Hlen.
  eexists. split.
  - apply (fetchResource_emits array_sort _ r log); [reflexivity | exact Hlog].
  - simpl. rewrite (filter_matches_falsy "" log eq_refl), Hlen. auto.
Qed.

(** X6. The slow count of a response is the number of filtered records whose
    execution time reaches the threshold, when the records of the store are
    marked as [logQuery] marks them under the configuration. *)
Theorem fetchResource_slow_count cfg st data r log :
  all_logs (Forall (slow_marked cfg)) st ->
  resource data = ResourceName r -> st !! r = Some log ->
  exists response,
    fetchResource array_sort true data st = Emitted response
    /\ resourceSlowQueries response =
       Z.of_nat (length (List.filter
                           (fun q => number_ge (executionTime q)
                                       (mysql_slow_query_warning cfg))
                           (List.filter (matches (toLowerCase (search data)))
                              log))).
Proof.
  intros Hmarked Hres Hst. eexists. split.
  - apply (fetchResource_emits array_sort data r log); assumption.
  - simpl. do 2 f_equal.
    assert (H : Forall (slow_marked cfg)
                  (List.filter (matches (toLowerCase (search data))) log)).
    { apply Forall_forall. intros q Hq%list_elem_of_In.
      apply filter_In in Hq as [Hq%list_elem_of_In _].
      exact (proj1 (Forall_forall _ _) (Hmarked r log Hst) q Hq). }
    induction H as [|q l Hq _ IH]; [reflexivity|]. simpl.
    rewrite IH. unfold is_slow. rewrite Hq.
    destruct (number_ge _ _); reflexivity.
Qed.

End StoreAndView.

(** ** More on the profiler correlation *)

Section CorrelationMore.

Context {Param : Type} (parseFloat : string -> float).
Implicit Types (ps : list Param) (batch : list (Transaction Param))
  (profiler : list ProfilerRow) (calls : list (LogCall Param)).

Abbreviation record_call :=
  (fun (_ : nat) (c : LogCall Param) calls => calls ++ [c]).

(** The call for a row and the batch entry it is paired with. *)
Abbreviation transaction_call r :=
  (fun (row : ProfilerRow) (t : Transaction Param) =>
     {| call_resource := r; call_query := t_query t;
        call_executionTime := parseFloat (duration row);
        call_parameters := t_params t |}).

Lemma js_index_nonneg {A} (l : list A) (offset : Z) (i : nat) :
  0 <= offset ->
  js_index l (offset + Z.of_nat i) = l !! (Z.to_nat offset + i)%nat.
Proof.
  intros H. unfold js_index.
  destruct (Z.ltb_spec (offset + Z.of_nat i) 0); [lia|].
  f_equal. lia.
Qed.

Lemma transaction_loop_zip r batch offset profiler : forall i,
  0 <= offset ->
  transaction_loop parseFloat record_call r batch offset i profiler [] =
  zip_with (transaction_call r) profiler (drop (Z.to_nat offset + i) batch).
Proof.
  induction profiler as [|row profiler IH]; intros i Hoff; simpl; [reflexivity|].
  rewrite js_index_nonneg by assumption.
  destruct (batch !! (Z.to_nat offset + i)%nat) as [t|] eqn:E.
  - rewrite transaction_loop_acc, IH by assumption.
    rewrite (drop_S _ _ _ E). simpl. do 3 f_equal. lia.
  - rewrite drop_ge; [reflexivity|]. now apply lookup_ge_None.
Qed.

(** X7. In the heterogeneous form the calls of [logQuery] pair the rows, in
    order, with the batch entries from index [offset] on, as far as both
    last; a negative [offset] gives no call at all. *)
Theorem profileBatchStatements_transactions_zip r batch
    (parameters : option (list Param)) offset profiler :
  profileBatchStatements_calls parseFloat r (Transactions batch) parameters
    offset profiler
  = if offset <? 0 then []
    else zip_with (transaction_call r) profiler (drop (Z.to_nat offset) batch).
Proof.
  unfold profileBatchStatements_calls, profileBatchStatements_with.
  destruct (Z.ltb_spec offset 0) as [Hneg | Hpos].
  - destruct profiler as [|row profiler]; [reflexivity|].
    apply transaction_loop_break. unfold js_index.
    now destruct (Z.ltb_spec (offset + Z.of_nat 0) 0); [|lia].
  - destruct profiler as [|row profiler]; [reflexivity|].
    rewrite transaction_loop_zip by assumption. now rewrite Nat.add_0_r.
Qed.

(** X8. [profileBatchStatements] logs nothing exactly when there is no
    profiler row, or the query is a text without a parameter list, or the
    batch has no entry at [offset]. *)
Theorem profileBatchStatements_silent r (q : BatchQuery Param)
    (parameters : option (list Param)) offset profiler :
  profileBatchStatements_calls parseFloat r q parameters offset profiler = []
  <-> profiler = []
      \/ match q with
         | Template _ => parameters = None
         | Transactions batch => js_index batch offset = None
         end.
Proof.
  unfold profileBatchStatements_calls, profileBatchStatements_with.
  destruct profiler as [|row profiler]; [tauto|].
  destruct q as [text | batch].
  - destruct parameters as [ps|].
    + rewrite template_loop_calls. simpl. split; [discriminate|].
      intros [H | H]; discriminate H.
    + tauto.
  - simpl. rewrite Z.add_0_r.
    destruct (js_index batch offset) as [t|].
    + rewrite transaction_loop_acc. simpl. split; [discriminate|].
      intros [H | H]; discriminate H.
    + tauto.
Qed.

Lemma profileBatchStatements_calls_for r (q : BatchQuery Param)
    (parameters : option (list Param)) offset profiler :
  all_for r (profileBatchStatements_calls parseFloat r q parameters offset profiler).
Proof.
  unfold all_for, profileBatchStatements_calls, profileBatchStatements_with.
  destruct profiler as [|row profiler]; [constructor|].
  destruct q as [text | batch]; [destruct parameters as [ps|]|].
  - rewrite template_loop_calls. apply Forall_forall.
    intros c (i & Hi)%list_elem_of_lookup_1.
    rewrite app_nil_l, list_lookup_imap in Hi.
    destruct ((row :: profiler) !! i); [|discriminate]. now injection Hi as <-.
  - constructor.
  - generalize (row :: profiler) O. clear row profiler.
    intros profiler. induction profiler as [|row profiler IH]; intros i; simpl.
    + constructor.
    + destruct (js_index batch (offset + Z.of_nat i)) as [t|]; [|constructor].
      rewrite transaction_loop_acc. apply Forall_app. split; [|apply IH].
      repeat constructor.
Qed.

Lemma logQuery_all_frame cfg Date_now r r' calls : forall k st,
  all_for r calls -> r' <> r ->
  logQuery_all cfg Date_now k calls st !! r' = st !! r'.
Proof.
  induction calls as [|c calls IH]; intros k st Hall Hne; [reflexivity|].
  inversion Hall; subst. simpl. rewrite IH by assumption.
  unfold logQuery_call. apply logQuery_lookup_ne. congruence.
Qed.

(** X9. [profileBatchStatements] changes no log but the one of the invoking
    resource. *)
Theorem profileBatchStatements_frame cfg Date_now r r' (q : BatchQuery Param)
    (parameters : option (list Param)) offset profiler st :
  r' <> r ->
  profileBatchStatements parseFloat cfg Date_now r q parameters offset
    profiler st !! r'
  = st !! r'.
Proof.
  intros Hne. rewrite profileBatchStatements_run.
  apply (logQuery_all_frame cfg Date_now r); [|assumption].
  apply profileBatchStatements_calls_for.
Qed.

End CorrelationMore.

(** ** The engine's sort keeps the elements *)

Section V8SortFacts.

Context {A : Type} (comparefn : A -> A -> float).

Lemma BinaryInsertionSort_perm (rest : list A) : forall sorted,
  BinaryInsertionSort comparefn sorted rest ≡ₚ sorted ++ rest.
Proof.
  induction rest as [|pivot rest IH]; intros sorted.
  - simpl. now rewrite app_nil_r.
  - cbn [BinaryInsertionSort]. rewrite IH.
    generalize (insertion_point comparefn pivot sorted (S (length sorted)) 0
                  (length sorted)).
    intros left. rewrite <- app_assoc. simpl.
    rewrite <- !Permutation_middle. now rewrite app_assoc, take_drop.
Qed.

Lemma CountAndMakeRun_perm (l : list A) :
  fst (CountAndMakeRun comparefn l) ++ snd (CountAndMakeRun comparefn l) ≡ₚ l.
Proof.
  unfold CountAndMakeRun. destruct l as [|x [|y l]]; try (now rewrite app_nil_r).
  cbv zeta. cbn [fst snd].
  destruct (negative _).
  - rewrite <- Permutation_rev. now rewrite take_drop.
  - now rewrite take_drop.
Qed.

Lemma v8_sort_perm (l : list A) : v8_sort comparefn l ≡ₚ l.
Proof.
  unfold v8_sort. destruct (length l <? 2)%nat; [reflexivity|].
  pose proof (CountAndMakeRun_perm l) as H.
  destruct (CountAndMakeRun comparefn l) as [run rest]. simpl in H.
  now rewrite BinaryInsertionSort_perm.
Qed.

End V8SortFacts.

(** ** Pages *)

Lemma slice_page {A} (l : list A) (p : Z) :
  0 <= p ->
  slice l (p * 10) (p * 10 + 10) = take 10 (drop (Z.to_nat (p * 10)) l).
Proof.
  intros Hp. unfold slice, relative_index.
  destruct (Z.ltb_spec (p * 10) 0); [lia|].
  destruct (Z.ltb_spec (p * 10 + 10) 0); [lia|].
  destruct (Z_le_gt_dec (Z.of_nat (length l)) (p * 10)) as [Hout | Hin].
  - rewrite !drop_ge by lia. now rewrite !take_nil.
  - replace (Z.to_nat (Z.min (p * 10) (Z.of_nat (length l))))
      with (Z.to_nat (p * 10)) by lia.
    destruct (Z_le_gt_dec (p * 10 + 10) (Z.of_nat (length l))) as [Hfull | Hlast].
    + f_equal. lia.
    + rewrite !take_ge; [reflexivity | |]; rewrite length_drop; lia.
Qed.

Lemma length_slice_page {A} (l : list A) (p : Z) :
  (length (slice l (p * 10) (p * 10 + 10)) <= 10)%nat.
Proof.
  unfold slice, relative_index. rewrite length_take.
  destruct (Z.ltb_spec (p * 10) 0), (Z.ltb_spec (p * 10 + 10) 0); lia.
Qed.

Lemma slice_subseteq {A} (l : list A) (start stop : Z) : slice l start stop ⊆ l.
Proof.
  unfold slice. etransitivity; [apply subseteq_take | apply subseteq_drop].
Qed.

(** Cutting a list into tens and putting the tens together again. *)
Lemma concat_tens {A} (n : nat) : forall l : list A,
  (length l <= 10 * n)%nat ->
  concat (map (fun p => take 10 (drop (10 * p) l)) (seq 0 n)) = l.
Proof.
  induction n as [|n IH]; intros l Hlen.
  - destruct l; [reflexivity | simpl in Hlen; lia].
  - simpl seq. rewrite <- seq_shift, map_cons, map_map. simpl concat.
    rewrite drop_0.
    rewrite (map_ext _ (fun p => take 10 (drop (10 * p) (drop 10 l)))).
    + rewrite IH by (rewrite length_drop; lia). apply take_drop.
    + intros p. rewrite drop_drop. do 2 f_equal. lia.
Qed.

(** ** The search text *)

Lemma prefix_true (sub : string) : forall s,
  String.prefix sub s = true <-> exists post, s = sub +:+ post.
Proof.
  induction sub as [|a sub IH]; intros s.
  - split; [intros _; now exists s | now destruct s].
  - destruct s as [|b s]; simpl.
    + split; [discriminate | intros [post H]; discriminate H].
    + destruct (ascii_dec a b) as [<-|Hne].
      * rewrite IH. split; intros [post H]; exists post.
        -- now rewrite append_cons, H.
        -- rewrite append_cons in H. now injection H.
      * split; [discriminate|]. intros [post H]. rewrite append_cons in H.
        injection H as H _. congruence.
Qed.

(** [includes] is the search for a piece of the text. *)
Lemma includes_true (sub : string) : forall s,
  includes s sub = true <-> exists pre post, s = pre +:+ sub +:+ post.
Proof.
  induction s as [|c s IH].
  - cbn [includes]. destruct (String.prefix sub "") eqn:E.
    + apply prefix_true in E as [post E]. split; [|reflexivity].
      intros _. now exists "", post.
    + split; [discriminate|]. intros ([|d pre] & post & H).
      * assert (String.prefix sub "" = true) by (apply prefix_true; eauto).
        congruence.
      * discriminate H.
  - cbn [includes]. destruct (String.prefix sub (String c s)) eqn:E.
    + apply prefix_true in E as [post E]. split; [|reflexivity].
      intros _. now exists "", post.
    + rewrite IH. split.
      * intros (pre & post & ->). now exists (String c pre), post.
      * intros ([|d pre] & post & H).
        -- assert (String.prefix sub (String c s) = true)
             by (apply prefix_true; eauto).
           congruence.
        -- rewrite append_cons in H. injection H as _ ->. eauto.
Qed.

(** ** More on the view handler *)

Section ViewMore.

Variable array_sort :
  (QueryData -> QueryData -> float) -> list QueryData -> list QueryData.

Lemma fetchResource_Emitted_inv allowed data st response :
  fetchResource array_sort allowed data st = Emitted response ->
  exists r log,
    resource data = ResourceName r /\ allowed = true /\ st !! r = Some log.
Proof.
  unfold fetchResource. destruct (resource data) as [r|]; [|discriminate].
  destruct allowed; [|discriminate]. simpl.
  destruct (st !! r) as [log|] eqn:Hst; [|discriminate].
  intros _. exists r, log. auto.
Qed.



(** X11. No response carries more than ten records, whatever the page index,
    a negative one included. *)
Theorem fetchResource_page_size allowed data st :
  (length (page_of (fetchResource array_sort allowed data st)) <= 10)%nat.
Proof.
  destruct (fetchResource array_sort allowed data st) as [|response|] eqn:E;
    simpl; try lia.
  destruct (fetchResource_Emitted_inv _ _ _ _ E) as (r & log & Hres & -> & Hst).
  rewrite (fetchResource_emits array_sort data r log st Hres Hst) in E.
  injection E as <-. simpl. apply length_slice_page.
Qed.

(** X12. The pages of a resource cut its filtered and sorted log into tens:
    page [p >= 0] holds the records [10 p .. 10 p + 9] of it, the pages
    [0 .. pageCount - 1] put together give all of it, and the pages from
    [pageCount] on are empty; the engine's sort is taken to keep the length
    of what it sorts. *)
Theorem fetchResource_pages r text sort log st :
  (forall cmp l, length (array_sort cmp l) = length l) ->
  st !! r = Some log ->
  let view := ordered_view array_sort (page_request r 0 text sort) log in
  let page p :=
    page_of (fetchResource array_sort true (page_request r p text sort) st) in
  exists pages : nat,
    (forall p, exists response,
       fetchResource array_sort true (page_request r p text sort) st
       = Emitted response
       /\ pageCount response = Z.of_nat pages)
    /\ (forall p, 0 <= p -> page p = take 10 (drop (Z.to_nat (p * 10)) view))
    /\ concat (map (fun p => page (Z.of_nat p)) (seq 0 pages)) = view
    /\ (forall p, Z.of_nat pages <= p -> page p = []).
Proof.
  intros Hsort Hst view page.
  set (filtered := List.filter (matches (toLowerCase text)) log).
  assert (Hview : length view = length filtered).
  { unfold view, ordered_view. simpl. fold filtered.
    destruct sort as [[|s ss]|]; try reflexivity.
    unfold sortQueries. destruct (sort_desc s);
      [rewrite length_rev|]; apply Hsort. }
  pose proof (Math_ceil_div_10 (Z.of_nat (length filtered))) as Hceil.
  set (pc := Math_ceil_div (Z.of_nat (length filtered)) 10) in *.
  assert (Hpage : forall p, 0 <= p ->
                    page p = take 10 (drop (Z.to_nat (p * 10)) view)).
  { intros p Hp. unfold page.
    rewrite (fetchResource_emits array_sort (page_request r p text sort)
               r log st eq_refl Hst).
    simpl. now apply slice_page. }
  exists (Z.to_nat pc). repeat split.
  - intros p. eexists. split.
    + apply (fetchResource_emits array_sort (page_request r p text sort)
               r log st eq_refl Hst).
    + simpl. fold filtered. fold pc. lia.
  - exact Hpage.
  - rewrite (map_ext _ (fun p => take 10 (drop (10 * p) view))).
    + apply concat_tens. lia.
    + intros p. rewrite Hpage by lia. do 2 f_equal. lia.
  - intros p Hp. rewrite Hpage by lia. rewrite drop_ge; [reflexivity | lia].
Qed.

(** X13. The search does not look at the case of the search text: two
    requests whose search texts have the same lower-case form get the same
    answer. *)
Theorem fetchResource_search_case allowed r p text1 text2 sort st :
  toLowerCase text1 = toLowerCase text2 ->
  fetchResource array_sort allowed (page_request r p text1 sort) st
  = fetchResource array_sort allowed (page_request r p text2 sort) st.
Proof.
  intros H. unfold fetchResource. simpl.
  now rewrite !search_lowered, H.
Qed.

(** X14. Every record of a response is a record of the log of the requested
    resource, and its text, in lower case, holds the search text, in lower
    case, as a piece; the engine's sort is taken to return only elements of
    what it sorts. *)
Theorem fetchResource_page_matches allowed data st q :
  (forall cmp l x, x ∈ array_sort cmp l -> x ∈ l) ->
  q ∈ page_of (fetchResource array_sort allowed data st) ->
  exists r log,
    resource data = ResourceName r /\ st !! r = Some log /\ q ∈ log
    /\ exists pre post,
         toLowerCase (query q) = pre +:+ toLowerCase (search data) +:+ post.
Proof.
  intros Hsort Hq.
  destruct (fetchResource array_sort allowed data st) as [|response|] eqn:E;
    simpl in Hq; try (now inversion Hq).
  destruct (fetchResource_Emitted_inv _ _ _ _ E) as (r & log & Hres & -> & Hst).
  rewrite (fetchResource_emits array_sort data r log st Hres Hst) in E.
  injection E as <-. simpl in Hq. apply slice_subseteq in Hq.
  assert (Hin : q ∈ List.filter (matches (toLowerCase (search data))) log).
  { unfold ordered_view in Hq.
    destruct (sortBy data) as [[|s ss]|]; try assumption.
    unfold sortQueries in Hq. destruct (sort_desc s).
    - eapply Hsort. apply list_elem_of_In, in_rev, list_elem_of_In. exact Hq.
    - eapply Hsort, Hq. }
  apply list_elem_of_In, filter_In in Hin as [Hin Hm].
  exists r, log. repeat split; [assumption.. | now apply list_elem_of_In |].
  now apply includes_true.
Qed.

End ViewMore.

(** ** Sorting on the engine *)

Lemma run_tail_zero (l : list QueryData) : forall previous,
  run_tail (compareQueries SortOther) false previous l = length l.
Proof.
  induction l as [|current l IH]; intros previous; [reflexivity|].
  cbn [run_tail]. change (Compare (compareQueries SortOther) current previous)
    with 0%float.
  change (negative 0%float) with false. cbv iota. cbn [length]. f_equal. apply IH.
Qed.

(** X15. A sort specification whose [id] is neither [query] nor
    [executionTime] leaves the records in the order of the log; with [desc]
    it turns that order round. *)
Theorem sortQueries_other_id (l : list QueryData) :
  sortQueries v8_sort l {| sort_id := SortOther; sort_desc := false |} = l
  /\ sortQueries v8_sort l {| sort_id := SortOther; sort_desc := true |} = rev l.
Proof.
  assert (H : v8_sort (compareQueries SortOther) l = l).
  { destruct l as [|a [|b l]]; try reflexivity.
    unfold v8_sort, CountAndMakeRun.
    change (Compare (compareQueries SortOther) b a) with 0%float.
    change (negative 0%float) with false. rewrite run_tail_zero.
    change (length (a :: b :: l) <? 2)%nat with false. cbv iota.
    change (2 + length l)%nat with (length (a :: b :: l)).
    now rewrite firstn_all, drop_all. }
  unfold sortQueries. cbn [sort_id sort_desc]. now rewrite H.
Qed.

(** X16. Sorting shows the same records: on the engine's sort, what
    [sortQueries] returns is a rearrangement of what it is given, for every
    sort specification. *)
Theorem sortQueries_permutation (l : list QueryData) (sort : SortSpec) :
  sortQueries v8_sort l sort ≡ₚ l.
Proof.
  unfold sortQueries. destruct (sort_desc sort).
  - rewrite <- Permutation_rev. apply v8_sort_perm.
  - apply v8_sort_perm.
Qed.

(** ** The [mysql] command *)

Lemma slow_count_length (l : list QueryData) :
  slow_count l = Z.of_nat (length (List.filter is_slow l)).
Proof.
  unfold slow_count.
  assert (H : forall n, fold_left (fun n q => n + (if is_slow q then 1 else 0)) l n
                        = n + Z.of_nat (length (List.filter is_slow l))).
  { induction l as [|q l IH]; intros n; simpl; [lia|].
    rewrite IH. destruct (is_slow q); simpl; lia. }
  now rewrite H.
Qed.

(** The loop of the command over the keys, in one piece. *)
Lemma openUi_loop (st : QueryLog) (keys : list string) : forall acc,
  let logs := map (fun r => default [] (st !! r)) keys in
  fold_left (openUi_step st) keys acc =
  {| resources := resources acc;
     totalQueries := totalQueries acc + Z.of_nat (length (concat logs));
     slowQueries :=
       slowQueries acc + Z.of_nat (length (List.filter is_slow (concat logs)));
     totalTime :=
       fold_left (fun t log => PrimFloat.add t (total_time log)) logs
         (totalTime acc);
     chartData_labels := chartData_labels acc ++ keys;
     chartData_data :=
       chartData_data acc
       ++ map (fun log => {| chart_queries := Z.of_nat (length log);
                             chart_time := PrimFloat.add 0%float (total_time log) |})
            logs |}.
Proof.
  induction keys as [|r keys IH]; intros acc; cbv zeta.
  - destruct acc. simpl. f_equal; (lia || now rewrite app_nil_r).
  - simpl. rewrite IH. unfold openUi_step. simpl.
    rewrite length_app, List.filter_app, length_app, slow_count_length.
    f_equal; try lia; now rewrite <- app_assoc.
Qed.

Lemma openUi_Some cfg source keys st summary :
  openUi cfg source keys st = Some summary ->
  summary =
    fold_left (openUi_step st) keys
      {| resources := keys; totalQueries := 0; slowQueries := 0;
         totalTime := 0%float; chartData_labels := [];
         chartData_data := [] |}.
Proof.
  unfold openUi. destruct (negb (mysql_ui cfg)); [discriminate|].
  destruct (source <? 1); [discriminate|]. now intros [= <-].
Qed.

(** X17. The command answers exactly when the dashboard is enabled and the
    source is a player ([source >= 1]). Its answer lists the keys in the
    order of their enumeration, as [resources] and as chart labels, gives
    for each the number of its records and their summed time, and counts as
    [totalQueries] all the records of these logs and as [slowQueries] the
    slow ones among them. *)
Theorem openUi_summary cfg source keys st :
  let logs := map (fun r => default [] (st !! r)) keys in
  (openUi cfg source keys st = None <-> mysql_ui cfg = false \/ source < 1)
  /\ forall summary,
       openUi cfg source keys st = Some summary ->
       resources summary = keys
       /\ chartData_labels summary = keys
       /\ chartData_data summary =
            map (fun log => {| chart_queries := Z.of_nat (length log);
                               chart_time :=
                                 PrimFloat.add 0%float (total_time log) |})
              logs
       /\ totalQueries summary = Z.of_nat (length (concat logs))
       /\ slowQueries summary =
            Z.of_nat (length (List.filter is_slow (concat logs))).
Proof.
  intros logs. split.
  - unfold openUi. destruct (mysql_ui cfg); simpl.
    + destruct (Z.ltb_spec source 1).
      * split; auto.
      * split; [discriminate | intros [H' | H']; [discriminate | lia]].
    + split; auto.
  - intros summary ->%openUi_Some. rewrite openUi_loop. simpl. auto.
Qed.

Lemma length_filter_perm {A} (f : A -> bool) (l l' : list A) :
  l ≡ₚ l' -> length (List.filter f l) = length (List.filter f l').
Proof.
  induction 1 as [|x l l' _ IH|x y l|l l' l'' _ IH1 _ IH2]; simpl.
  - reflexivity.
  - destruct (f x); simpl; now rewrite IH.
  - destruct (f x), (f y); reflexivity.
  - now rewrite IH1.
Qed.

(** X18. The counts of the command do not depend on the order in which the
    keys of the store are enumerated. *)
Theorem openUi_counts_order cfg source keys1 keys2 st summary1 summary2 :
  enumerates keys1 st -> enumerates keys2 st ->
  openUi cfg source keys1 st = Some summary1 ->
  openUi cfg source keys2 st = Some summary2 ->
  totalQueries summary1 = totalQueries summary2
  /\ slowQueries summary1 = slowQueries summary2.
Proof.
  intros [Hnd1 Hin1] [Hnd2 Hin2] ->%openUi_Some ->%openUi_Some.
  assert (Hperm : keys1 ≡ₚ keys2).
  { apply NoDup_Permutation; try assumption. intros r. now rewrite Hin1, Hin2. }
  rewrite !openUi_loop. simpl.
  assert (Hlogs : concat (map (fun r => default [] (st !! r)) keys1)
                  ≡ₚ concat (map (fun r => default [] (st !! r)) keys2)).
  { now rewrite Hperm. }
  split; do 2 f_equal.
  - now rewrite Hlogs.
  - now apply length_filter_perm.
Qed.

(** X19. The command and the page view agree on each resource: the chart
    entry of a key gives the number of queries a page request without a
    search text reports for it, and [0] plus the time that request reports. *)
Theorem openUi_agrees_with_view array_sort cfg source keys st summary
    (i : nat) r log p sort :
  openUi cfg source keys st = Some summary ->
  keys !! i = Some r -> st !! r = Some log ->
  exists response entry,
    fetchResource array_sort true (page_request r p "" sort) st = Emitted response
    /\ chartData_labels summary !! i = Some r
    /\ chartData_data summary !! i = Some entry
    /\ chart_queries entry = resourceQueriesCount response
    /\ chart_time entry = PrimFloat.add 0%float (resourceTime response).
Proof.
  intros ->%openUi_Some Hkey Hst. rewrite openUi_loop. simpl.
  eexists _, _. split; [|split; [exact Hkey|split]].
  - apply (fetchResource_emits array_sort (page_request r p "" sort) r log st
             eq_refl Hst).
  - rewrite !list_lookup_fmap, Hkey. simpl. rewrite Hst. reflexivity.
  - simpl. now rewrite (filter_matches_falsy "" log eq_refl).
Qed.

(** ** The debug setting *)

(** X20. [runProfiler] sends its four statements, in order, exactly when it
    returns [true], and nothing otherwise; and [logQuery] prints its console
    line exactly for the queries it marks slow and for those of the
    resources [runProfiler] returns [true] for. *)
Theorem logQuery_prints_iff cfg mysql_debug r now q t sent :
  (fst (runProfiler mysql_debug r sent) = Some true
   /\ snd (runProfiler mysql_debug r sent) = sent ++ profilerStatements
   \/ fst (runProfiler mysql_debug r sent) = None
      /\ snd (runProfiler mysql_debug r sent) = sent)
  /\ (logQuery_prints cfg mysql_debug r t = true
      <-> slow (newRecord cfg now q t) = Some true
          \/ fst (runProfiler mysql_debug r sent) = Some true).
Proof.
  unfold logQuery_prints, runProfiler, newRecord. simpl.
  destruct mysql_debug as [[|] | names];
    [| |destruct (bool_decide (r ∈ names))];
    destruct (number_ge t (mysql_slow_query_warning cfg)); simpl;
    intuition congruence.
Qed.

(** ** Instances *)

Lemma all_logs_empty (P : list QueryData -> Prop) : all_logs P ∅.
Proof. intros r log H. rewrite lookup_empty in H. discriminate H. Qed.

Lemma all_logs_singleton (P : list QueryData -> Prop) r log :
  P log -> all_logs P {[ r := log ]}.
Proof. intros H r' log' [_ <-]%lookup_singleton_Some. exact H. Qed.

Lemma v8_sort_length {A} (cmp : A -> A -> float) (l : list A) :
  length (v8_sort cmp l) = length l.
Proof. apply Permutation_length, v8_sort_perm. Qed.

Lemma v8_sort_elem_of {A} (cmp : A -> A -> float) (l : list A) (x : A) :
  x ∈ v8_sort cmp l -> x ∈ l.
Proof. intros H. now rewrite <- (v8_sort_perm cmp l). Qed.

Lemma logQuery_all_bounded_witness :
  all_logs (fun log => (length log <= 3)%nat)
    (logQuery_all sample_cfg Z.of_nat O sample_calls ∅).
Proof.
  apply (logQuery_all_bounded sample_cfg Z.of_nat O sample_calls ∅).
  apply all_logs_empty.
Defined.

Lemma logQuery_all_chronological_witness :
  all_logs chronological (logQuery_all sample_cfg Z.of_nat O sample_calls ∅).
Proof.
  apply (logQuery_all_chronological sample_cfg Z.of_nat O sample_calls ∅).
  - intros i j H. lia.
  - apply all_logs_empty.
Defined.

Lemma logQuery_all_slow_marked_witness :
  all_logs (Forall (slow_marked sample_cfg))
    (logQuery_all sample_cfg Z.of_nat O sample_calls ∅).
Proof.
  apply (logQuery_all_slow_marked sample_cfg Z.of_nat O sample_calls ∅).
  apply all_logs_empty.
Defined.

Lemma fetchResource_after_logQuery_witness :
  exists response,
    fetchResource_client v8_sort true
      {| client_resource := ResourceName "res"; client_pageIndex := 0;
         client_search := SearchText "users"; client_sortBy := None |}
      (logQuery_all sample_cfg Z.of_nat O sample_calls ∅)
    = Emitted response.
Proof.
  apply (fetchResource_after_logQuery v8_sort sample_cfg Z.of_nat O
           sample_calls ∅
           {| client_resource := ResourceName "res"; client_pageIndex := 0;
              client_search := SearchText "users"; client_sortBy := None |}
           "res").
  - reflexivity.
  - reflexivity.
  - exists (sample_call "res" "SELECT * FROM Users" 250%float).
    split; [constructor | reflexivity].
  - reflexivity.
  - discriminate.
Defined.

Lemma fetchResource_counts_logged_witness :
  exists response,
    fetchResource v8_sort true (page_request "res" 0 "" None)
      (logQuery_all sample_cfg Z.of_nat O sample_calls ∅) = Emitted response
    /\ resourceQueriesCount response = 3
    /\ pageCount response = 1.
Proof.
  apply (fetchResource_counts_logged v8_sort sample_cfg Z.of_nat sample_calls
           ∅ "res" 0 None).
  - reflexivity.
  - reflexivity.
  - simpl. lia.
  - repeat constructor.
  - discriminate.
  - reflexivity.
Defined.

Lemma fetchResource_slow_count_witness :
  exists response,
    fetchResource v8_sort true (page_request "res" 0 "users" None)
      {[ "res" := sample_log ]} = Emitted response
    /\ resourceSlowQueries response = 1.
Proof.
  apply (fetchResource_slow_count v8_sort sample_cfg {[ "res" := sample_log ]}
           (page_request "res" 0 "users" None) "res" sample_log).
  - apply all_logs_singleton. repeat (constructor; try reflexivity).
  - reflexivity.
  - apply lookup_singleton_eq.
Defined.

Lemma profileBatchStatements_frame_witness :
  profileBatchStatements sample_parseFloat sample_cfg Z.of_nat "res"
    (Template "INSERT ?") (Some [7%nat]) 0 [ {| duration := "2.0000" |} ]
    {[ "other" := sample_log ]} !! "other"
  = ({[ "other" := sample_log ]} : QueryLog) !! "other".
Proof.
  apply (profileBatchStatements_frame sample_parseFloat sample_cfg Z.of_nat
           "res" "other").
  discriminate.
Defined.

Lemma fetchResource_pages_witness :
  exists pages : nat,
    concat (map (fun p => page_of (fetchResource v8_sort true
                                     (page_request "res" (Z.of_nat p) "users"
                                        (Some [ {| sort_id := SortExecutionTime;
                                                   sort_desc := true |} ]))
                                     {[ "res" := sample_log ]}))
              (seq 0 pages))
    = ordered_view v8_sort
        (page_request "res" 0 "users"
           (Some [ {| sort_id := SortExecutionTime; sort_desc := true |} ]))
        sample_log.
Proof.
  destruct (fetchResource_pages v8_sort "res" "users"
              (Some [ {| sort_id := SortExecutionTime; sort_desc := true |} ])
              sample_log {[ "res" := sample_log ]}
              v8_sort_length (lookup_singleton_eq _ _))
    as (pages & _ & _ & Hall & _).
  exists pages. exact Hall.
Defined.

Lemma fetchResource_search_case_witness :
  fetchResource v8_sort true (page_request "res" 0 "USERS" None)
    {[ "res" := sample_log ]}
  = fetchResource v8_sort true (page_request "res" 0 "users" None)
      {[ "res" := sample_log ]}.
Proof.
  apply (fetchResource_search_case v8_sort true "res" 0 "USERS" "users" None).
  reflexivity.
Defined.

Lemma fetchResource_page_matches_witness :
  exists pre post,
    toLowerCase "SELECT * FROM Users" = pre +:+ toLowerCase "USERS" +:+ post.
Proof.
  destruct (fetchResource_page_matches v8_sort true
              (page_request "res" 0 "USERS" None) {[ "res" := sample_log ]}
              (newRecord sample_cfg 1 "SELECT * FROM Users" 250%float)
              (@v8_sort_elem_of QueryData))
    as (r & log & _ & _ & _ & H).
  - vm_compute. constructor.
  - exact H.
Defined.

Lemma openUi_summary_witness :
  exists summary,
    openUi sample_cfg 1 ["res"] {[ "res" := sample_log ]} = Some summary
    /\ totalQueries summary = 2 /\ slowQueries summary = 1.
Proof.
  eexists. split; [reflexivity|].
  destruct (proj2 (openUi_summary sample_cfg 1 ["res"] {[ "res" := sample_log ]})
              _ eq_refl) as (_ & _ & _ & Htotal & Hslow).
  split; [exact Htotal | exact Hslow].
Defined.

Lemma enumerates_two (a b : string) (la lb : list QueryData) :
  a <> b -> enumerates [a; b] (<[a := la]> {[ b := lb ]}).
Proof.
  intros Hne. split.
  - repeat constructor; [|apply not_elem_of_nil].
    intros ->%list_elem_of_singleton. congruence.
  - intros r. rewrite lookup_insert_is_Some, lookup_singleton_is_Some.
    rewrite elem_of_cons, list_elem_of_singleton.
    destruct (decide (a = r)); intuition congruence.
Qed.

Lemma enumerates_perm (keys keys' : list string) (st : QueryLog) :
  keys ≡ₚ keys' -> enumerates keys st -> enumerates keys' st.
Proof.
  intros Hperm [Hnd Hin]. split.
  - now rewrite <- Hperm.
  - intros r. now rewrite <- Hperm.
Qed.

Lemma openUi_counts_order_witness :
  let st : QueryLog := <["a" := sample_log]> {[ "b" := sample_log ]} in
  exists summary1 summary2,
    openUi sample_cfg 1 ["a"; "b"] st = Some summary1
    /\ openUi sample_cfg 1 ["b"; "a"] st = Some summary2
    /\ totalQueries summary1 = totalQueries summary2.
Proof.
  intros st. eexists _, _. split; [reflexivity|]. split; [reflexivity|].
  refine (proj1 (openUi_counts_order sample_cfg 1 ["a"; "b"] ["b"; "a"] st
                   _ _ _ _ eq_refl eq_refl)).
  - apply enumerates_two. discriminate.
  - apply (enumerates_perm ["a"; "b"]); [apply perm_swap|].
    apply enumerates_two. discriminate.
Defined.

Lemma openUi_agrees_with_view_witness :
  exists summary response entry,
    openUi sample_cfg 1 ["res"] {[ "res" := sample_log ]} = Some summary
    /\ fetchResource v8_sort true (page_request "res" 0 "" None)
         {[ "res" := sample_log ]} = Emitted response
    /\ chartData_data summary !! O = Some entry
    /\ chart_queries entry = resourceQueriesCount response.
Proof.
  eexists.
  destruct (openUi_agrees_with_view v8_sort sample_cfg 1 ["res"]
              {[ "res" := sample_log ]} _ O "res" sample_log 0 None
              eq_refl eq_refl (lookup_singleton_eq _ _))
    as (response & entry & Hview & _ & Hentry & Hcount & _).
  exists response, entry. split; [reflexivity|].
  split; [exact Hview|]. split; [exact Hentry | exact Hcount].
Defined.

(** ** The duration of a row *)

(** C6. A statement that took 1.5 seconds: the profiling query answers the
    row [1,500.0000], [parseFloat] reads it up to the comma, and
    [profileBatchStatements] logs the template and its parameter set with an
    execution time of 1 millisecond, not 1500. A statement of 2 milliseconds
    is logged with 2. *)
Theorem profileBatchStatements_template_seconds :
  let slow_row := {| duration := profiling_duration 1500000 |} in
  let fast_row := {| duration := profiling_duration 2000 |} in
  duration slow_row = "1,500.0000"
  /\ duration fast_row = "2.0000"
  /\ profileBatchStatements_calls js_parseFloat "res" (Template "INSERT ?")
       (Some [7%nat; 8%nat]) 0 [slow_row; fast_row]
     = [ {| call_resource := "res"; call_query := "INSERT ?";
            call_executionTime := 1%float; call_parameters := Some 7%nat |};
         {| call_resource := "res"; call_query := "INSERT ?";
            call_executionTime := 2%float; call_parameters := Some 8%nat |} ].
Proof. repeat split; vm_compute; reflexivity. Qed.
